(** * Restaman: REST handlers, hook registry and query parser

    A shallow embedding of [index.js]: the [ModelWrapper] class (hook and
    middleware registries, exposed methods, hidden fields, route handlers),
    the registry [Restaman] with the route table it builds, and the
    query-string parser.

    Conventions of the embedding.
    - JavaScript values are the inductive [JsVal]; an object is the ordered
      list of its own properties, in the order the language enumerates them,
      an array the list of its elements; a number is a double.
    - The tables the program keeps in plain objects and reads under a name
      chosen by the caller (the hook tables, the middleware table, the statics
      of a schema) are read with the members a plain object inherits from
      [Object.prototype].  Documents, bodies and query mappings are read by
      their own properties.
    - Objects are mutable and passed by reference in the source; here the
      state of the request, of the response and of a hook's payload is threaded
      through the callbacks, and a callback can change the content of an object
      or array it is given but not replace a primitive.  The query descriptor
      that [find], [findOne] and [count] hand to their pre hooks can hold
      objects of the request itself (an object-valued [filter], [populate] or
      [projection] parameter; in [count], the whole query mapping): what the
      handler writes into such an object is written to both, and the
      properties that depend on what the hooks do with them are stated for
      requests and hooks that keep the two in step.
    - A handler is a computation over the request state that records what it
      does in a trace: hook invocations, mapper calls, method invocations, the
      response sent and the error forwarded to [next].
    - The document mapper (mongoose) and the built-ins [JSON.parse] and the
      conversions between strings and numbers are collaborators, taken as
      parameters. *)

From stdpp Require Import gmap strings list fin_maps pretty.
From Stdlib Require Import PrimFloat.
From Stdlib Require SpecFloat FloatOps Uint63.

Local Open Scope string_scope.
Local Open Scope list_scope.
Local Open Scope stdpp_scope.
Set Warnings "-register-all".

(** ** JavaScript values *)

(** A number: a double. *)
Abbreviation JsNumber := float.

Inductive JsVal :=
| VUndefined
| VNull
| VBool (b : bool)
| VNum (n : JsNumber)
| VStr (s : string)
| VArr (elems : list JsVal)
| VObj (props : list (string * JsVal)).

(** An object as the list of its own properties, in insertion order. *)
Abbreviation Obj := (list (string * JsVal)).

(** Truthiness, as tested by [if (v)], [!v], [v || w], [v ? a : b]. *)
Definition truthy (v : JsVal) : bool :=
  match v with
  | VUndefined | VNull => false
  | VBool b => b
  | VNum n => negb (PrimFloat.is_zero n || PrimFloat.is_nan n)
  | VStr s => negb (String.eqb s "")
  | VArr _ | VObj _ => true
  end.

(** [!v] *)
Definition js_not (v : JsVal) : JsVal := VBool (negb (truthy v)).

(** [v || w] *)
Definition js_or (v w : JsVal) : JsVal := if truthy v then v else w.

(** [v instanceof Array] *)
Definition instanceof_Array (v : JsVal) : bool :=
  match v with VArr _ => true | _ => false end.

(** [v instanceof Object]: objects and arrays, never a primitive. *)
Definition instanceof_Object (v : JsVal) : bool :=
  match v with VArr _ | VObj _ => true | _ => false end.

Inductive JsType := TUndefined | TObject | TBoolean | TNumber | TString.

(** [typeof v] *)
Definition typeof (v : JsVal) : JsType :=
  match v with
  | VUndefined => TUndefined
  | VNull | VArr _ | VObj _ => TObject
  | VBool _ => TBoolean
  | VNum _ => TNumber
  | VStr _ => TString
  end.

(** *** Own properties *)

(** [o[k]] on an object: the value of the own property, [undefined] when
    there is none. *)
Fixpoint obj_get (o : Obj) (k : string) : JsVal :=
  match o with
  | [] => VUndefined
  | (k', v) :: o' => if String.eqb k' k then v else obj_get o' k
  end.

Definition obj_keys (o : Obj) : list string := o.*1.

(** The number a string of decimal digits denotes. *)
Definition digit_of_ascii (c : Ascii.ascii) : option N :=
  let n := Ascii.N_of_ascii c in
  if (48 <=? n)%N && (n <=? 57)%N then Some (n - 48)%N else None.

Fixpoint digits_value (s : string) (acc : N) : option N :=
  match s with
  | EmptyString => Some acc
  | String c s' =>
      match digit_of_ascii c with
      | Some d => digits_value s' (acc * 10 + d)%N
      | None => None
      end
  end.

(** The array index a property key is, if it is one: the canonical decimal
    text of an integer below [2^32 - 1]. *)
Definition index_of_key (k : string) : option N :=
  match digits_value k 0 with
  | Some n => if bool_decide (pretty n = k /\ (n < 4294967295)%N) then Some n else None
  | None => None
  end.

(** The order in which the own properties of an object are enumerated: the
    keys that are array indices first, in ascending order, then the other
    keys in the order they were added. *)
Definition enumerated_before (k k' : string) : bool :=
  match index_of_key k, index_of_key k' with
  | Some i, Some j => (i <? j)%N
  | Some _, None => true
  | None, _ => false
  end.

(** A new property takes its place in the enumeration order. *)
Fixpoint obj_insert (o : Obj) (k : string) (v : JsVal) : Obj :=
  match o with
  | [] => [(k, v)]
  | (k', v') :: o' =>
      if enumerated_before k k' then (k, v) :: o else (k', v') :: obj_insert o' k v
  end.

(** A property there is keeps its place. *)
Fixpoint obj_replace (o : Obj) (k : string) (v : JsVal) : Obj :=
  match o with
  | [] => []
  | (k', v') :: o' =>
      if String.eqb k' k then (k', v) :: o' else (k', v') :: obj_replace o' k v
  end.

(** The own properties after [o[k] = v] has set or added the property [k]. *)
Definition obj_set (o : Obj) (k : string) (v : JsVal) : Obj :=
  if bool_decide (k ∈ obj_keys o) then obj_replace o k v else obj_insert o k v.

(** The own properties after [o[k] = v].  Under the key [__proto__], unless
    the object has an own property of that name, the write goes to the
    accessor of [Object.prototype]: it sets the prototype link or does
    nothing, and the own properties stay as they are. *)
Definition obj_put (o : Obj) (k : string) (v : JsVal) : Obj :=
  if bool_decide (k = "__proto__" /\ k ∉ obj_keys o) then o else obj_set o k v.

(** The element index a property key denotes in an array of [n] elements. *)
Definition array_index (n : nat) (k : string) : option nat :=
  fst <$> list_find (fun i => pretty i = k) (seq 0 n).

Definition string_of_ascii (c : Ascii.ascii) : string := String c EmptyString.

(** The own enumerable properties of a value, as [Object.assign] copies
    them: the properties of an object, the elements of an array and the
    characters of a string under their indices, nothing for the rest. *)
Definition own_props (v : JsVal) : Obj :=
  match v with
  | VObj o => o
  | VArr l => imap (fun i x => (pretty i, x)) l
  | VStr s => imap (fun i c => (pretty i, VStr (string_of_ascii c))) (String.list_ascii_of_string s)
  | _ => []
  end.

(** A [TypeError] raised by the language itself. *)
Definition TypeError (message : string) : JsVal :=
  VObj [("name", VStr "TypeError"); ("message", VStr message)].

(** The outcome of evaluating something that may throw. *)
Inductive Completion (A : Type) :=
| Normal (a : A)
| Throw (e : JsVal).
Arguments Normal {A} a.
Arguments Throw {A} e.

(** The length of an array or of a string, as a number. *)
Definition Number_of_nat (n : nat) : JsNumber :=
  PrimFloat.of_uint63 (Uint63.of_Z (Z.of_nat n)).

(** [v[k]]: reading a property.  Reading from [undefined] or [null]
    throws. *)
Definition get_prop (v : JsVal) (k : string) : Completion JsVal :=
  match v with
  | VUndefined | VNull => Throw (TypeError "Cannot read property")
  | VObj o => Normal (obj_get o k)
  | VArr l =>
      if String.eqb k "length" then Normal (VNum (Number_of_nat (length l)))
      else Normal (default VUndefined (array_index (length l) k ≫= fun i => l !! i))
  | VStr s =>
      if String.eqb k "length" then Normal (VNum (Number_of_nat (String.length s)))
      else Normal (obj_get (own_props (VStr s)) k)
  | VBool _ | VNum _ => Normal VUndefined
  end.

(** The value read, [undefined] where the read throws: what an observer of an
    outbound document sees under a field name. *)
Definition read_prop (v : JsVal) (k : string) : JsVal :=
  match get_prop v k with Normal x => x | Throw _ => VUndefined end.

(** [v[k] = x] in strict mode (the file starts with ['use strict']): a write
    to a primitive throws.  An array keeps named properties besides its
    elements; those are outside [VArr], so a write under a name that is not an
    index of the array leaves its elements as they are. *)
Definition set_prop (v : JsVal) (k : string) (x : JsVal) : Completion JsVal :=
  match v with
  | VObj o => Normal (VObj (obj_put o k x))
  | VArr l =>
      match array_index (length l) k with
      | Some i => Normal (VArr (<[i := x]> l))
      | None => Normal (VArr l)
      end
  | _ => Throw (TypeError "Cannot create property")
  end.

(** [Object.assign(target, source)] for an object target: the own properties
    of the source are written into the target one after the other. *)
Definition Object_assign (target : Obj) (source : JsVal) : Obj :=
  foldl (fun t kv => obj_put t kv.1 kv.2) target (own_props source).

(** Whether [Object.assign(target, source)] replaces the prototype of the
    target: the source has an own property [__proto__] that holds an object or
    [null], and the target has no own property of that name. *)
Definition assigns_prototype (target : Obj) (source : JsVal) : bool :=
  bool_decide ("__proto__" ∉ obj_keys target) &&
  existsb (fun kv => String.eqb kv.1 "__proto__" &&
                     match kv.2 with VObj _ | VArr _ | VNull => true | _ => false end)
          (own_props source).

(** *** The members of [Object.prototype] *)

(** The names under which every plain object finds a member it inherits from
    [Object.prototype]. *)
Definition Object_prototype : list string :=
  ["constructor"; "__defineGetter__"; "__defineSetter__"; "hasOwnProperty";
   "__lookupGetter__"; "__lookupSetter__"; "isPrototypeOf";
   "propertyIsEnumerable"; "toString"; "valueOf"; "__proto__";
   "toLocaleString"].

(** What a read [table[k]] of a plain object finds: the own property, or else
    the member inherited under that name, or nothing. *)
Inductive Slot (A : Type) :=
| Own (a : A)
| Inherited (member : string)
| Missing.
Arguments Own {A} a.
Arguments Inherited {A} member.
Arguments Missing {A}.

Definition plain_get {A} (own : gmap string A) (k : string) : Slot A :=
  match own !! k with
  | Some a => Own a
  | None => if bool_decide (k ∈ Object_prototype) then Inherited k else Missing
  end.

(** *** Conversions *)

(** Built-ins of the language that the program calls and that are taken as
    given: [JSON.parse] (which fails on malformed text), the conversion of
    a string to a number and the conversion of a number to a string. *)
Class JsBuiltins := {
  JSON_parse : string -> option JsVal;
  StringToNumber : string -> JsNumber;
  NumberToString : JsNumber -> string
}.

Fixpoint join (sep : string) (l : list string) : string :=
  match l with
  | [] => ""
  | [s] => s
  | s :: l' => s +:+ sep +:+ join sep l'
  end.

Section Conversions.
Context `{JsBuiltins}.

(** [String(v)] *)
Fixpoint ToString (v : JsVal) : string :=
  match v with
  | VUndefined => "undefined"
  | VNull => "null"
  | VBool true => "true"
  | VBool false => "false"
  | VNum n => NumberToString n
  | VStr s => s
  | VArr l =>
      join "," (map (fun x => match x with
                              | VUndefined | VNull => ""
                              | _ => ToString x
                              end) l)
  | VObj _ => "[object Object]"
  end.

(** [Number(v)] *)
Definition ToNumber (v : JsVal) : JsNumber :=
  match v with
  | VUndefined => nan
  | VNull => 0%float
  | VBool true => 1%float
  | VBool false => 0%float
  | VNum n => n
  | VStr s => StringToNumber s
  | VArr _ | VObj _ => StringToNumber (ToString v)
  end.
End Conversions.

(** ** Requests, callbacks and the trace of a handler *)

(** The part of an express request the handlers read: the parsed body, the
    parsed query string (always a mapping) and the route parameters. *)
Record Request := {
  body : JsVal;
  query : Obj;
  params : Obj
}.

Inductive HookType := type_pre | type_post.

(** What a callback does with the [(req, res, data)] it is called with: it
    returns, having possibly changed the objects it was given, or throws. *)
Inductive CallbackResult :=
| Returns (req : Request) (res : JsVal) (data : JsVal)
| Throws (e : JsVal).

(** What [applyHooks] calls as a hook: a function registered by the user,
    the function [setupModel] registers to clear the hidden fields, which
    reads the wrapper's hidden-field list when it runs, or the member of
    [Object.prototype] that a read of the hook table finds under an action
    name. *)
Inductive Callback :=
| UserHook (id : nat) (f : Request -> JsVal -> JsVal -> CallbackResult)
| HiddenHook
| InheritedMember (member : string).

(** A route middleware, a function: one set by the user, or the default
    [function (req, res, next) { next() }]. *)
Inductive Middleware :=
| UserMiddleware (id : nat)
| PassThrough.

(** What a read of the middleware table gives [getMiddleware] to return: a
    middleware; the member of [Object.prototype] found under the name; or,
    once the prototype of the table is a callback [f], the value of
    [f[member] || otherwise], which depends on the properties of [f]. *)
Inductive Gate :=
| Callable (m : Middleware)
| Builtin (member : string)
| MemberOr (f : Middleware) (member : string) (otherwise : Gate).

(** The middleware table [this.middlewares], a plain object: its own
    properties, and the callback that has taken the place of its prototype, if
    one has ([this.middlewares['__proto__'] = callback]). *)
Record MiddlewareTable := {
  mw_own : gmap string Middleware;
  mw_proto : option Middleware
}.

(** A method descriptor after [Object.assign({exposeName: method.name}, method)]. *)
Record MethodDescriptor := {
  exposeName : string;
  name : string
}.

(** The argument of [exposeMethod] and [exposeStatic]: a method name, or a
    descriptor with a name and possibly an expose name. *)
Inductive MethodArg :=
| MethodName (n : string)
| MethodObject (n : string) (expose : option string).

(** The calls a handler makes to the document mapper. *)
Inductive MapperCall :=
| MCreate (model : JsVal) (doc : JsVal)
| MFindOne (model : JsVal) (filter projection : JsVal) (populate : option JsVal)
| MFind (model : JsVal) (filter projection options : JsVal) (populate : option JsVal)
| MCount (model : JsVal) (filter : JsVal)
| MSave (doc : JsVal)
| MRemove (doc : JsVal).

(** How a promise settles. *)
Inductive Settled :=
| Resolved (v : JsVal)
| Rejected (e : JsVal).

(** What calling a method of the model gives: a plain value, a promise, or
    an exception. *)
Inductive Returned :=
| RValue (v : JsVal)
| RPromise (p : Settled)
| RThrow (e : JsVal).

(** A member of the model or of its schema's statics: a function, with its
    declared parameter names (what [getParamNames] reads) and its behaviour
    on [this] and the arguments, or some other value. *)
Inductive Member :=
| MFunction (paramNames : list string) (impl : JsVal -> list JsVal -> Returned)
| MValue (v : JsVal).

(** [m instanceof Function], [m] being the result of a member lookup. *)
Definition instanceof_Function (m : option Member) : bool :=
  match m with Some (MFunction _ _) => true | _ => false end.

(** [table[k] instanceof Function] for a plain object [table]: every member
    of [Object.prototype] is a function but [__proto__], which reads as the
    prototype itself. *)
Definition slot_instanceof_Function (m : Slot Member) : bool :=
  match m with
  | Own (MFunction _ _) => true
  | Inherited member => negb (String.eqb member "__proto__")
  | _ => false
  end.

(** The mongoose side of a wrapped model: the own properties of
    [model().schema.statics], a plain object; the members of the model itself,
    own and inherited ([model()[name]]); the collection name and the answers
    of the mapper. *)
Record Mongoose := {
  schema_statics : gmap string Member;
  model_members : gmap string Member;
  collectionName : string;
  mapper : MapperCall -> Settled
}.

Inductive Event :=
| EvHook (type : HookType) (action : string) (hook : Callback)
         (req : Request) (res : JsVal) (data : JsVal)
| EvMapper (call : MapperCall)
| EvInvoke (method : string) (this : JsVal) (args : list JsVal)
| EvSend (v : JsVal)
| EvNext (err : JsVal).

(** The state a handler runs in. *)
Record HState := {
  hs_req : Request;
  hs_res : JsVal;
  hs_trace : list Event
}.

Definition Handler (A : Type) : Type := HState -> HState * Completion A.

Definition ret {A} (a : A) : Handler A := fun st => (st, Normal a).

Definition bind {A B} (m : Handler A) (k : A -> Handler B) : Handler B :=
  fun st =>
    match m st with
    | (st', Normal a) => k a st'
    | (st', Throw e) => (st', Throw e)
    end.

#[global] Instance Handler_ret : MRet Handler := @ret.
#[global] Instance Handler_bind : MBind Handler := fun A B k m => bind m k.

Definition throw {A} (e : JsVal) : Handler A := fun st => (st, Throw e).

(** [try { m } catch (e) { h(e) }], and [promise.catch(h)] for what runs
    inside the promise chain. *)
Definition catch {A} (m : Handler A) (h : JsVal -> Handler A) : Handler A :=
  fun st =>
    match m st with
    | (st', Throw e) => h e st'
    | r => r
    end.

Definition lift {A} (c : Completion A) : Handler A := fun st => (st, c).

Definition emit (e : Event) : Handler unit :=
  fun st => ({| hs_req := hs_req st; hs_res := hs_res st;
                hs_trace := hs_trace st ++ [e] |}, Normal tt).

Definition get_req : Handler Request := fun st => (st, Normal (hs_req st)).

(** [res.send(v)] *)
Definition send (v : JsVal) : Handler unit := emit (EvSend v).

(** [next(err)] *)
Definition next (err : JsVal) : Handler unit := emit (EvNext err).

(** Running a handler on a request, from an empty trace. *)
Definition run {A} (h : Handler A) (req : Request) (res : JsVal)
  : HState * Completion A :=
  h {| hs_req := req; hs_res := res; hs_trace := [] |}.

(** The response sent, if one was. *)
Fixpoint sent (tr : list Event) : option JsVal :=
  match tr with
  | [] => None
  | EvSend v :: _ => Some v
  | _ :: tr' => sent tr'
  end.

Definition response (st : HState) : option JsVal := sent (hs_trace st).

Definition Completion_bind {A B} (c : Completion A) (k : A -> Completion B)
  : Completion B :=
  match c with Normal a => k a | Throw e => Throw e end.

(** [l.forEach(x => acc = f(acc, x))], stopping at the first exception. *)
Fixpoint forEach_acc {A B} (f : B -> A -> Completion B) (l : list A) (acc : B)
  : Completion B :=
  match l with
  | [] => Normal acc
  | x :: l' => Completion_bind (f acc x) (forEach_acc f l')
  end.

(** Each element replaced by what [f] makes of it, stopping at the first
    exception. *)
Fixpoint forEach_elem {A} (f : A -> Completion A) (l : list A)
  : Completion (list A) :=
  match l with
  | [] => Normal []
  | x :: l' =>
      Completion_bind (f x) (fun x' =>
      Completion_bind (forEach_elem f l') (fun l'' => Normal (x' :: l'')))
  end.

(** An [Error] created by the program. *)
Definition Error (message : string) : JsVal :=
  VObj [("name", VStr "Error"); ("message", VStr message)].

(** ** ModelWrapper *)

Record ModelWrapper := {
  modelName : string;
  hooks_pre : gmap string (list Callback);
  hooks_post : gmap string (list Callback);
  middlewares : MiddlewareTable;
  methods : list MethodDescriptor;
  statics : list MethodDescriptor;
  hidden : list string
}.

(** [new ModelWrapper(model)] *)
Definition new_ModelWrapper (model : string) : ModelWrapper :=
  {| modelName := model;
     hooks_pre := ∅; hooks_post := ∅;
     middlewares := {| mw_own := ∅; mw_proto := None |};
     methods := []; statics := []; hidden := [] |}.

(** [this.hooks[type]] *)
Definition hooks (w : ModelWrapper) (type : HookType) : gmap string (list Callback) :=
  match type with type_pre => hooks_pre w | type_post => hooks_post w end.

Definition set_hooks (w : ModelWrapper) (type : HookType)
    (m : gmap string (list Callback)) : ModelWrapper :=
  {| modelName := modelName w;
     hooks_pre := match type with type_pre => m | type_post => hooks_pre w end;
     hooks_post := match type with type_pre => hooks_post w | type_post => m end;
     middlewares := middlewares w;
     methods := methods w; statics := statics w; hidden := hidden w |}.

Definition set_middlewares (w : ModelWrapper) (m : MiddlewareTable)
  : ModelWrapper :=
  {| modelName := modelName w;
     hooks_pre := hooks_pre w; hooks_post := hooks_post w;
     middlewares := m;
     methods := methods w; statics := statics w; hidden := hidden w |}.

Definition set_methods (w : ModelWrapper) (l : list MethodDescriptor)
  : ModelWrapper :=
  {| modelName := modelName w;
     hooks_pre := hooks_pre w; hooks_post := hooks_post w;
     middlewares := middlewares w;
     methods := l; statics := statics w; hidden := hidden w |}.

Definition set_statics (w : ModelWrapper) (l : list MethodDescriptor)
  : ModelWrapper :=
  {| modelName := modelName w;
     hooks_pre := hooks_pre w; hooks_post := hooks_post w;
     middlewares := middlewares w;
     methods := methods w; statics := l; hidden := hidden w |}.

Definition set_hidden (w : ModelWrapper) (l : list string) : ModelWrapper :=
  {| modelName := modelName w;
     hooks_pre := hooks_pre w; hooks_post := hooks_post w;
     middlewares := middlewares w;
     methods := methods w; statics := statics w; hidden := l |}.

(** [model(params)]: the model of the database named by [params.db], of the
    default database when there is no such name.  The handle is represented by
    what identifies it: the database and the model name. *)
Definition model (w : ModelWrapper) (params : JsVal) : JsVal :=
  let dbname := if truthy params then read_prop params "db" else VNull in
  VObj [("db", if truthy dbname then dbname else VUndefined);
        ("modelName", VStr (modelName w))].

(** *** Hooks *)

(** A callback mutates the object it is given; it cannot replace the
    caller's value by one of another kind. *)
Definition by_reference (old new : JsVal) : JsVal :=
  match old, new with
  | VObj _, VObj _ => new
  | VArr _, VArr _ => new
  | _, _ => old
  end.

(** [removeHidden] of [setupModel]:
    [modelWrapper.hidden.forEach(field => doc[field] = undefined)]. *)
Definition removeHidden (w : ModelWrapper) (doc : JsVal) : Completion JsVal :=
  forEach_acc (fun doc field => set_prop doc field VUndefined) (hidden w) doc.

(** The hook [setupModel] registers. *)
Definition hiddenHook (w : ModelWrapper) (data : JsVal) : Completion JsVal :=
  if truthy data && negb (Nat.eqb (length (hidden w)) 0) then
    match data with
    | VArr docs => Completion_bind (forEach_elem (removeHidden w) docs)
                                   (fun docs' => Normal (VArr docs'))
    | _ => removeHidden w data
    end
  else Normal data.

(** A member of [Object.prototype] called as a hook, [member(req, res,
    data)], with no [this]: [constructor], which is [Object], returns its
    first argument and [toString] returns a string; the other functions
    convert [this] to an object first and throw; [__proto__] reads as the
    prototype itself, which is not a function. *)
Definition call_inherited (member : string)
    (req : Request) (res : JsVal) (data : JsVal) : CallbackResult :=
  if bool_decide (member ∈ ["constructor"; "toString"]) then Returns req res data
  else if String.eqb member "__proto__" then Throws (TypeError "hook is not a function")
  else Throws (TypeError "Cannot convert undefined or null to object").

(** What a callback does when it is called with [(req, res, data)]. *)
Definition invoke (w : ModelWrapper) (hook : Callback)
    (req : Request) (res : JsVal) (data : JsVal) : CallbackResult :=
  match hook with
  | UserHook _ f => f req res data
  | HiddenHook =>
      match hiddenHook w data with
      | Normal data' => Returns req res data'
      | Throw e => Throws e
      end
  | InheritedMember member => call_inherited member req res data
  end.

(** [hook(req, res, data)] *)
Definition callHook (w : ModelWrapper) (type : HookType) (action : string)
    (hook : Callback) (data : JsVal) : Handler JsVal :=
  fun st =>
    let tr := hs_trace st ++ [EvHook type action hook (hs_req st) (hs_res st) data] in
    match invoke w hook (hs_req st) (hs_res st) data with
    | Returns req' res' data' =>
        ({| hs_req := req'; hs_res := res'; hs_trace := tr |},
         Normal (by_reference data data'))
    | Throws e =>
        ({| hs_req := hs_req st; hs_res := hs_res st; hs_trace := tr |}, Throw e)
    end.

(** The list [applyHooks] builds before it calls anything.  A bucket of
    the table is an array, which [concat] appends element by element; an
    inherited member is truthy and is appended as it is. *)
Definition hooksToApply (w : ModelWrapper) (type : HookType) (action : string)
  : list Callback :=
  let hooksToApply := [] in
  let hooksToApply :=
    match plain_get (hooks w type) action with
    | Own hs => hooksToApply ++ hs
    | Inherited member => hooksToApply ++ [InheritedMember member]
    | Missing => hooksToApply
    end in
  match plain_get (hooks w type) "all" with
  | Own hs => hooksToApply ++ hs
  | Inherited member => hooksToApply ++ [InheritedMember member]
  | Missing => hooksToApply
  end.

(** [hooksToApply.forEach(hook => hook(req, res, data))]; the result is the
    payload as the callbacks left it. *)
Fixpoint callHooks (w : ModelWrapper) (type : HookType) (action : string)
    (l : list Callback) (data : JsVal) : Handler JsVal :=
  match l with
  | [] => mret data
  | hook :: l' =>
      data' ← callHook w type action hook data;
      callHooks w type action l' data'
  end.

Definition applyHooks (w : ModelWrapper) (type : HookType) (action : string)
    (data : JsVal) : Handler JsVal :=
  callHooks w type action (hooksToApply w type action) data.

(** The [action] argument of [addHook] and [setMiddleware]: an action name
    or an array of such arguments. *)
Inductive ActionArg :=
| Action (a : string)
| Actions (l : list ActionArg).

(** The property key an action argument is used as: the name, and for an
    array its elements joined by commas. *)
Fixpoint action_key (action : ActionArg) : string :=
  match action with
  | Action a => a
  | Actions l => join "," (map action_key l)
  end.

(** [l.forEach(x => f(x))] for an [f] that changes a state and may throw:
    the state as the loop left it, and whether it returned. *)
Fixpoint forEach_state {S A} (f : S -> A -> S * Completion unit) (l : list A) (s : S)
  : S * Completion unit :=
  match l with
  | [] => (s, Normal tt)
  | x :: l' =>
      match f s x with
      | (s', Normal _) => forEach_state f l' s'
      | (s', Throw e) => (s', Throw e)
      end
  end.

(** [addHook(type, action, callback)]: the wrapper as the call left it, and
    whether it returned.  Under an action name that the table finds on
    [Object.prototype] no list is created, and the [push] on the inherited
    member throws. *)
Fixpoint addHook (w : ModelWrapper) (type : HookType) (action : ActionArg)
    (callback : Callback) : ModelWrapper * Completion unit :=
  let w :=
    match plain_get (hooks w type) (action_key action) with
    | Missing => set_hooks w type (<[action_key action := []]> (hooks w type))
    | _ => w
    end in
  match action with
  | Actions l => forEach_state (fun w _action => addHook w type _action callback) l w
  | Action a =>
      match plain_get (hooks w type) a with
      | Own hs => (set_hooks w type (<[a := hs ++ [callback]]> (hooks w type)), Normal tt)
      | _ => (w, Throw (TypeError "this.hooks[type][action].push is not a function"))
      end
  end.

(** [this.middlewares[action] = callback], for a callback that is a
    function: under [__proto__] the write goes to the accessor of
    [Object.prototype] and makes the callback the prototype of the table. *)
Definition middleware_set (table : MiddlewareTable) (action : string)
    (callback : Middleware) : MiddlewareTable :=
  if String.eqb action "__proto__"
  then {| mw_own := mw_own table; mw_proto := Some callback |}
  else {| mw_own := <[action := callback]> (mw_own table);
          mw_proto := mw_proto table |}.

Fixpoint setMiddleware (w : ModelWrapper) (action : ActionArg)
    (callback : Middleware) : ModelWrapper :=
  match action with
  | Actions l => foldl (fun w val => setMiddleware w val callback) w l
  | Action a => set_middlewares w (middleware_set (middlewares w) a callback)
  end.

(** [this.middlewares[action] || otherwise] *)
Definition middleware_or (table : MiddlewareTable) (action : string)
    (otherwise : Gate) : Gate :=
  if String.eqb action "__proto__" then
    match mw_proto table with
    | Some f => Callable f
    | None => Builtin action
    end
  else
    match mw_own table !! action, mw_proto table with
    | Some m, _ => Callable m
    | None, None =>
        if bool_decide (action ∈ Object_prototype) then Builtin action else otherwise
    | None, Some f => MemberOr f action otherwise
    end.

Definition getMiddleware (w : ModelWrapper) (action : string) : Gate :=
  middleware_or (middlewares w) action
    (middleware_or (middlewares w) "all" (Callable PassThrough)).

(** [pre(action, callback)] and [post(action, callback)] return the wrapper
    when [addHook] returns. *)
Definition pre (w : ModelWrapper) (action : ActionArg) (callback : Callback)
  : ModelWrapper * Completion unit := addHook w type_pre action callback.

Definition post (w : ModelWrapper) (action : ActionArg) (callback : Callback)
  : ModelWrapper * Completion unit := addHook w type_post action callback.

(** The argument of [hide]: a field name or an array of field names. *)
Inductive FieldsArg :=
| Field (f : string)
| Fields (l : list string).

Definition hide (w : ModelWrapper) (args : FieldsArg) : ModelWrapper :=
  set_hidden w (hidden w ++ match args with Fields l => l | Field f => [f] end).

(** *** Exposed methods *)

(** [method instanceof Object ? method : {name: method}] followed by
    [Object.assign({exposeName: method.name}, method)]. *)
Definition descriptor (method : MethodArg) : MethodDescriptor :=
  match method with
  | MethodName n => {| exposeName := n; name := n |}
  | MethodObject n None => {| exposeName := n; name := n |}
  | MethodObject n (Some e) => {| exposeName := e; name := n |}
  end.

Definition exposeMethod (w : ModelWrapper) (env : Mongoose) (method : MethodArg)
  : Completion ModelWrapper :=
  let method := descriptor method in
  if instanceof_Function (model_members env !! name method) then
    Normal (set_methods w (methods w ++ [method]))
  else
    Throw (Error ("Instance method " +:+ name method +:+
                  " is not defined for model " +:+ modelName w)).

Definition exposeStatic (w : ModelWrapper) (env : Mongoose) (method : MethodArg)
  : Completion ModelWrapper :=
  let method := descriptor method in
  if slot_instanceof_Function (plain_get (schema_statics env) (name method)) then
    match list_find (fun _method => exposeName _method = exposeName method) (statics w) with
    | Some (index, _) => Normal (set_statics w (<[index := method]> (statics w)))
    | None => Normal (set_statics w (statics w ++ [method]))
    end
  else
    Throw (Error ("Static method " +:+ name method +:+
                  " is not defined for model " +:+ modelName w)).

Definition getMethods (w : ModelWrapper) : list MethodDescriptor := methods w.

Definition getStatics (w : ModelWrapper) : list MethodDescriptor := statics w.

(** The shortcut [method(method)]. *)
Definition method (w : ModelWrapper) (env : Mongoose) (m : MethodArg)
  : Completion ModelWrapper := exposeMethod w env m.

(** The shortcut [['static'](method)]. *)
Definition static (w : ModelWrapper) (env : Mongoose) (m : MethodArg)
  : Completion ModelWrapper := exposeMethod w env m.

(** ** Query parser *)

Section QueryParser.
Context `{JsBuiltins}.

Definition formatters : list (string * (JsVal -> Obj -> JsVal)) :=
  [("sort", fun value _ => VStr (ToString value));
   ("skip", fun value q => VNum (ToNumber (js_or value (obj_get q "start"))));
   ("limit", fun value _ => VNum (ToNumber value))].

Definition parseQueryOptions (query : Obj) : JsVal :=
  VObj (foldl (fun options kv =>
                 match typeof (obj_get query kv.1) with
                 | TUndefined => options
                 | _ => obj_set options kv.1 (kv.2 (obj_get query kv.1) query)
                 end) [] formatters).

Definition parseJSON (str : string) : JsVal :=
  match JSON_parse str with
  | Some result => result
  | None => VObj []
  end.

Definition parseQueryFilter (query : Obj) : JsVal :=
  match obj_get query "filter" with
  | VNull => VObj []
  | filter =>
      match typeof filter with
      | TObject => filter
      | TString => parseJSON (ToString filter)
      | _ => VObj []
      end
  end.

Definition parseQueryPopulate (query : Obj) : JsVal :=
  let populate := obj_get query "populate" in
  if truthy populate then
    match JSON_parse (ToString populate) with
    | Some parsed => parsed
    | None => populate
    end
  else VUndefined.

Definition parseQueryProjection (query : Obj) : JsVal :=
  let projection := js_or (obj_get query "projection") VNull in
  if truthy projection then
    match JSON_parse (ToString projection) with
    | Some parsed => parsed
    | None => projection
    end
  else projection.

Definition parseQuery (query : Obj) : JsVal :=
  VObj [("filter", parseQueryFilter query);
        ("populate", parseQueryPopulate query);
        ("options", parseQueryOptions query);
        ("projection", parseQueryProjection query)].
End QueryParser.

(** ** Errors *)

(** [new NotFoundError()] *)
Definition NotFoundError : JsVal :=
  VObj [("message", VStr "Document Not Found");
        ("statusCode", VNum 404%float);
        ("name", VStr "Not Found")].

(** The error [findById] throws. *)
Definition ModelNotFound : JsVal :=
  VObj [("message", VStr "Not Found");
        ("name", VStr "ModelNotFound");
        ("status", VNum 404%float)].

(** The error [create] forwards. *)
Definition OnlyObjectsAllowed : JsVal :=
  VObj [("name", VStr "TypeError");
        ("message", VStr "Only objects allowed");
        ("statusCode", VNum 400%float)].

(** ** Route handlers *)

Section Handlers.
Context `{JsBuiltins}.
Variable w : ModelWrapper.
Variable env : Mongoose.

(** A mapper call and the wait for its promise: the value it resolves to,
    or its rejection, thrown into the enclosing promise chain. *)
Definition await (call : MapperCall) : Handler JsVal :=
  emit (EvMapper call);;
  match mapper env call with
  | Resolved v => mret v
  | Rejected e => throw e
  end.

Definition initModel : Handler JsVal :=
  params ← applyHooks w type_pre "init" (VObj []);
  let model := model w params in
  applyHooks w type_post "init" model.

(** When the [filter] parameter of the request is an object, the filter of
    the query descriptor is that object: what [findOne] writes into the filter
    is written into [req.query.filter]. *)
Definition write_shared_filter (filter : JsVal) : Handler unit :=
  fun st =>
    let req := hs_req st in
    if instanceof_Object (obj_get (query req) "filter") then
      ({| hs_req := {| body := body req;
                       query := obj_set (query req) "filter" filter;
                       params := params req |};
          hs_res := hs_res st; hs_trace := hs_trace st |}, Normal tt)
    else (st, Normal tt).

(** [doc[name]()] for a method a document has from its model: a property of
    the document's own under that name is in the way of the method. *)
Definition has_method (doc : Obj) (name : string) : bool :=
  bool_decide (name ∉ obj_keys doc).

Definition findById (id model : JsVal) : Handler JsVal :=
  doc ← await (MFindOne model (VObj [("_id", id)]) VUndefined None);
  if negb (truthy doc) then throw ModelNotFound else mret doc.

Definition create : Handler unit :=
  req ← get_req;
  if instanceof_Array (body req) || instanceof_Object (js_not (body req)) then
    next OnlyObjectsAllowed
  else
    model ← initModel;
    applyHooks w type_pre "create" VUndefined;;
    req ← get_req;
    catch (doc ← await (MCreate model (body req));
           doc ← applyHooks w type_post "create" doc;
           send doc)
          next.

Definition findOne : Handler unit :=
  model ← initModel;
  req ← get_req;
  let query := parseQuery (query req) in
  filter ← lift (set_prop (read_prop query "filter") "_id" (obj_get (params req) "id"));
  write_shared_filter filter;;
  query ← lift (set_prop query "filter" filter);
  query ← applyHooks w type_pre "findOne" query;
  let populate := read_prop query "populate" in
  catch (doc ← await (MFindOne model (read_prop query "filter")
                        (read_prop query "projection")
                        (if truthy populate then Some populate else None));
         (if negb (truthy doc) then throw NotFoundError else mret tt);;
         doc ← applyHooks w type_post "findOne" doc;
         send doc)
        next.

Definition find : Handler unit :=
  model ← initModel;
  req ← get_req;
  let query := parseQuery (query req) in
  query ← applyHooks w type_pre "find" query;
  let populate := read_prop query "populate" in
  catch (docs ← await (MFind model (read_prop query "filter")
                         (read_prop query "projection")
                         (read_prop query "options")
                         (if truthy populate then Some populate else None));
         docs ← applyHooks w type_post "find" docs;
         send docs)
        next.

Definition update : Handler unit :=
  model ← initModel;
  req ← get_req;
  catch (doc ← findById (obj_get (params req) "id") model;
         doc ← applyHooks w type_pre "update" doc;
         req ← get_req;
         doc ← match doc with
               | VObj o =>
                   let doc := Object_assign o (body req) in
                   if negb (assigns_prototype o (body req)) && has_method doc "save"
                   then await (MSave (VObj doc))
                   else throw (TypeError "Object.assign(...).save is not a function")
               | _ => throw (TypeError "Object.assign(...).save is not a function")
               end;
         doc ← applyHooks w type_post "update" doc;
         send doc)
        next.

Definition delete : Handler unit :=
  model ← initModel;
  req ← get_req;
  catch (doc ← findById (obj_get (params req) "id") model;
         doc ← applyHooks w type_pre "delete" doc;
         doc ← match doc with
               | VObj o =>
                   if has_method o "remove" then await (MRemove doc)
                   else throw (TypeError "doc.remove is not a function")
               | _ => throw (TypeError "doc.remove is not a function")
               end;
         doc ← applyHooks w type_post "delete" doc;
         send doc)
        next.

Definition count : Handler unit :=
  model ← initModel;
  req ← get_req;
  let query := parseQuery [("filter", VObj (query req))] in
  query ← applyHooks w type_pre "count" query;
  catch (count ← await (MCount model (read_prop query "filter"));
         count ← applyHooks w type_post "count" count;
         send (VObj [("count", count)]))
        next.

(** [getParamNames(_method).map(paramName => req.body[paramName])] *)
Fixpoint bindParams (paramNames : list string) (body : JsVal)
  : Completion (list JsVal) :=
  match paramNames with
  | [] => Normal []
  | paramName :: rest =>
      Completion_bind (get_prop body paramName) (fun v =>
      Completion_bind (bindParams rest body) (fun vs => Normal (v :: vs)))
  end.

Definition callMethod (method : string) : Handler unit :=
  model ← initModel;
  applyHooks w type_pre "method" (VStr method);;
  catch (match model_members env !! method with
         | Some (MFunction paramNames _method) =>
             req ← get_req;
             params ← lift (bindParams paramNames (body req));
             emit (EvInvoke method model params);;
             result ← match _method model params with
                      | RValue v => mret v
                      | RPromise (Resolved v) => mret v
                      | RPromise (Rejected e) => throw e
                      | RThrow e => throw e
                      end;
             applyHooks w type_post "method" (VStr method);;
             send result
         | _ => throw (TypeError "not a function")
         end)
        next.

Definition callStatic (method : string) : Handler unit :=
  model ← initModel;
  applyHooks w type_pre "static" (VStr method);;
  catch (match model_members env !! method with
         | Some (MFunction paramNames _method) =>
             req ← get_req;
             params ← lift (bindParams paramNames (body req));
             emit (EvInvoke method model params);;
             result ← match _method model params with
                      | RValue v => mret v
                      | RPromise (Resolved v) => mret v
                      | RPromise (Rejected e) => throw e
                      | RThrow e => throw e
                      end;
             applyHooks w type_post "static" (VStr method);;
             send result
         | _ => throw (TypeError "not a function")
         end)
        next.
End Handlers.

(** ** Router assembly *)

Inductive Verb := OPTIONS | GET | POST | PUT | DELETE.

(** What a route runs. *)
Inductive RouteHandler :=
| RunCallStatic (method : string)
| RunAllow
| RunCount
| RunFindOne
| RunFind
| RunCreate
| RunUpdate
| RunDelete.

Record Route := {
  route_verb : Verb;
  route_path : string;
  route_middleware : option Gate;
  route_handler : RouteHandler
}.

Definition middleware (w : ModelWrapper) (action : string) : Gate :=
  getMiddleware w action.

Definition setupModelRoutes (w : ModelWrapper) (env : Mongoose) : list Route :=
  let path := "/" +:+ collectionName env in
  map (fun method =>
         {| route_verb := POST;
            route_path := path +:+ "/" +:+ exposeName method;
            route_middleware := None;
            route_handler := RunCallStatic (name method) |})
      (getStatics w)
  ++
  [ {| route_verb := OPTIONS; route_path := path;
       route_middleware := None; route_handler := RunAllow |};
    {| route_verb := GET; route_path := path +:+ "/count";
       route_middleware := Some (middleware w "count"); route_handler := RunCount |};
    {| route_verb := GET; route_path := path +:+ "/:id";
       route_middleware := Some (middleware w "find"); route_handler := RunFindOne |};
    {| route_verb := GET; route_path := path;
       route_middleware := Some (middleware w "find"); route_handler := RunFind |};
    {| route_verb := POST; route_path := path;
       route_middleware := Some (middleware w "create"); route_handler := RunCreate |};
    {| route_verb := POST; route_path := path +:+ "/:id";
       route_middleware := Some (middleware w "update"); route_handler := RunUpdate |};
    {| route_verb := PUT; route_path := path;
       route_middleware := Some (middleware w "create"); route_handler := RunCreate |};
    {| route_verb := DELETE; route_path := path +:+ "/:id";
       route_middleware := Some (middleware w "delete"); route_handler := RunDelete |} ].

(** [setupModel]: the wrapper with the hidden-field hook registered, and the
    routes added to the router. *)
Definition setupModel (w : ModelWrapper) (env : Mongoose)
  : ModelWrapper * list Route :=
  match addHook w type_post
          (Actions [Action "create"; Action "find"; Action "findOne";
                    Action "delete"; Action "update"])
          HiddenHook with
  | (w, Normal _) => (w, setupModelRoutes w env)
  | (w, Throw _) => (w, [])
  end.

(** ** Notions the properties are stated with *)

(** The actions [setupModel] registers its hook for. *)
Definition document_actions : ActionArg :=
  Actions [Action "create"; Action "find"; Action "findOne";
           Action "delete"; Action "update"].

(** One call of [addHook]. *)
Record Registration := {
  reg_type : HookType;
  reg_action : ActionArg;
  reg_callback : Callback
}.


(** The action names an action argument stands for, in order. *)
Fixpoint action_names (action : ActionArg) : list string :=
  match action with
  | Action a => [a]
  | Actions l => flat_map action_names l
  end.

(** The action names under which a hook or a middleware can be kept: those
    that name no member of [Object.prototype]. *)
Definition plain_names (action : ActionArg) : Prop :=
  Forall (fun a => a ∉ Object_prototype) (action_names action).

(** [addHook] as it acts on the table [this.hooks[type]]. *)
Fixpoint addHook_table (table : gmap string (list Callback)) (action : ActionArg)
    (callback : Callback) : gmap string (list Callback) * Completion unit :=
  let table :=
    match plain_get table (action_key action) with
    | Missing => <[action_key action := []]> table
    | _ => table
    end in
  match action with
  | Actions l => forEach_state (fun t _action => addHook_table t _action callback) l table
  | Action a =>
      match plain_get table a with
      | Own hs => (<[a := hs ++ [callback]]> table, Normal tt)
      | _ => (table, Throw (TypeError "this.hooks[type][action].push is not a function"))
      end
  end.

#[global] Instance HookType_eq_dec : EqDecision HookType.
Proof. solve_decision. Defined.

(** The callbacks one registration puts under [(type, action)]. *)
Definition registers (r : Registration) (type : HookType) (action : string)
  : list Callback :=
  if decide (reg_type r = type)
  then (fun _ => reg_callback r) <$> filter (fun a => a = action) (action_names (reg_action r))
  else [].


(** The callbacks a stretch of trace invokes, in order. *)
Definition hooks_called (evs : list Event) : list Callback :=
  omap (fun e => match e with EvHook _ _ h _ _ _ => Some h | _ => None end) evs.

(** The event is a hook invocation made by [applyHooks(type, action, ...)]. *)
Definition hook_event (type : HookType) (action : string) (e : Event) : Prop :=
  match e with
  | EvHook t a _ _ _ _ => t = type /\ a = action
  | _ => False
  end.

(** The callbacks of a list are invoked one after the other, each with the
    same three objects [(req, res, data)] in the state the callbacks before
    it left them, until one throws. *)
Inductive invoked_in_turn (w : ModelWrapper) (type : HookType) (action : string)
  : list Callback -> Request -> JsVal -> JsVal -> list Event -> Prop :=
| in_turn_done req res data :
    invoked_in_turn w type action [] req res data []
| in_turn_throws hook l req res data e :
    invoke w hook req res data = Throws e ->
    invoked_in_turn w type action (hook :: l) req res data
      [EvHook type action hook req res data]
| in_turn_returns hook l req res data req' res' data' evs :
    invoke w hook req res data = Returns req' res' data' ->
    invoked_in_turn w type action l req' res' (by_reference data data') evs ->
    invoked_in_turn w type action (hook :: l) req res data
      (EvHook type action hook req res data :: evs).

(** The list the hook table keeps under [action] as a property of its own:
    empty when there is none. *)
Definition bucket (w : ModelWrapper) (type : HookType) (action : string)
  : list Callback :=
  default [] (hooks w type !! action).

(** A state with more events at the end of its trace. *)
Definition with_trace (st : HState) (evs : list Event) : HState :=
  {| hs_req := hs_req st; hs_res := hs_res st; hs_trace := hs_trace st ++ evs |}.

(** The event is a hook invocation made by [initModel]. *)
Definition init_event (e : Event) : Prop :=
  hook_event type_pre "init" e \/ hook_event type_post "init" e.

(** The event is a response. *)
Definition is_send (e : Event) : Prop :=
  match e with EvSend _ => True | _ => False end.

(** No response has been sent so far. *)
Definition quiet (st : HState) : Prop := sent (hs_trace st) = None.

(** Whatever has been sent as the response satisfies [good]. *)
Definition answers (good : JsVal -> Prop) (st : HState) : Prop :=
  forall v, response st = Some v -> good v.

(** From a state satisfying [P], the computation ends in a state satisfying
    [Q] when it returns, and without a response sent when it throws. *)
Definition triple {A} (P : HState -> Prop) (m : Handler A)
    (Q : A -> HState -> Prop) : Prop :=
  forall st, P st ->
    match m st with
    | (st', Normal a) => Q a st'
    | (st', Throw _) => quiet st'
    end.

(** The hidden fields read as [undefined] on a document. *)
Definition cleared (fields : list string) (doc : JsVal) : Prop :=
  match doc with
  | VObj o => forall f, f ∈ fields -> obj_get o f = VUndefined
  | _ => True
  end.

(** The hidden fields read as [undefined] on an outbound result: on each
    document of an array, on the document itself otherwise. *)
Definition hidden_cleared (fields : list string) (v : JsVal) : Prop :=
  match v with
  | VArr docs => Forall (cleared fields) docs
  | _ => cleared fields v
  end.

(** The actions whose responses are documents. *)
Inductive DocumentAction := DoCreate | DoFind | DoFindOne | DoUpdate | DoDelete.

Definition action_name (a : DocumentAction) : string :=
  match a with
  | DoCreate => "create"
  | DoFind => "find"
  | DoFindOne => "findOne"
  | DoUpdate => "update"
  | DoDelete => "delete"
  end.

Definition document_handler `{JsBuiltins} (w : ModelWrapper) (env : Mongoose)
    (a : DocumentAction) : Handler unit :=
  match a with
  | DoCreate => create w env
  | DoFind => find w env
  | DoFindOne => findOne w env
  | DoUpdate => update w env
  | DoDelete => delete w env
  end.

(** The parameters of the query string that the query descriptor takes over
    as they are when they are objects, so that the descriptor and the request
    hold the same object. *)
Definition shared_parameters : list string := ["filter"; "populate"; "projection"].

(** None of these parameters is an object: each is absent or a primitive,
    as the query string [?filter={...}] gives them, and the descriptor that
    [parseQuery] builds holds no object of the request. *)
Definition unshared (q : Obj) : Prop :=
  Forall (fun k => instanceof_Object (obj_get q k) = false) shared_parameters.

(** The callback leaves alone what the request and the query descriptor may
    share: the query mapping of the request, and the filter, populate and
    projection of the descriptor. *)
Definition keeps_shared (w : ModelWrapper) (hook : Callback) : Prop :=
  forall req res data req' res' data',
    invoke w hook req res data = Returns req' res' data' ->
    query req' = query req /\
    Forall (fun k => read_prop (by_reference data data') k = read_prop data k)
           shared_parameters.

(** The request and the query descriptor are kept in step while the pre hooks
    of [action] run: they share no object, or no hook touches what they
    share. *)
Definition in_step (w : ModelWrapper) (action : string) (q : Obj) : Prop :=
  unshared q \/ Forall (keeps_shared w) (hooksToApply w type_pre action).

(** The callback leaves the query mapping of the request and the filter of
    the payload as they are. *)
Definition keeps_query (w : ModelWrapper) (hook : Callback) : Prop :=
  forall req res data req' res' data',
    invoke w hook req res data = Returns req' res' data' ->
    query req' = query req /\
    read_prop (by_reference data data') "filter" = read_prop data "filter".


(** ** Restaman: the registry of wrapped models *)

(** The registry.  A wrapper is held by reference in the source, so the
    configuration made on the wrapper [addModel] returns is seen through the
    registry; here the registry holds the wrappers as they are configured. *)
Record Restaman := {
  models : list ModelWrapper
}.

(** [new Restaman()] *)
Definition new_Restaman : Restaman := {| models := [] |}.

Definition getModelWrapper (r : Restaman) (name : string) : option ModelWrapper :=
  snd <$> list_find (fun modelWrapper => modelName modelWrapper = name) (models r).

(** [addModel(model)], for a model given by its name: the registry with the
    new wrapper, and the wrapper. *)
Definition addModel (r : Restaman) (model : string)
  : Completion (Restaman * ModelWrapper) :=
  let modelWrapper := new_ModelWrapper model in
  match getModelWrapper r (modelName modelWrapper) with
  | Some _ => Throw (Error "Model already registered")
  | None => Normal ({| models := models r ++ [modelWrapper] |}, modelWrapper)
  end.

Definition removeModel (r : Restaman) (name : string) : Restaman :=
  match list_find (fun modelWrapper => modelName modelWrapper = name) (models r) with
  | Some (index, _) => {| models := base.delete index (models r) |}
  | None => r
  end.

(** What [router.use] has been given. *)
Inductive RouterUse := BodyParserJson.

(** An express router: the middlewares used and the routes, in the order
    they were added. *)
Record Router := {
  router_use : list RouterUse;
  router_routes : list Route
}.

(** [initRouter(router)]: every wrapper of the registry is set up on the
    router, in registration order; [mongoose] gives the mongoose side of a
    model name. *)
Definition initRouter (r : Restaman) (mongoose : string -> Mongoose)
    (router : Router) : Restaman * Router :=
  let router := {| router_use := router_use router ++ [BodyParserJson];
                   router_routes := router_routes router |} in
  foldl (fun acc modelWrapper =>
           let set_up := setupModel modelWrapper (mongoose (modelName modelWrapper)) in
           ({| models := models acc.1 ++ [set_up.1] |},
            {| router_use := router_use acc.2;
               router_routes := router_routes acc.2 ++ set_up.2 |}))
        ({| models := [] |}, router) (models r).

(** [router(params)]: a new router, initialised. *)
Definition router (r : Restaman) (mongoose : string -> Mongoose)
  : Restaman * Router :=
  initRouter r mongoose {| router_use := []; router_routes := [] |}.

(** One change of the registry. *)
Inductive RegistryCall :=
| CallAddModel (model : string)
| CallRemoveModel (name : string).

(** The registry after a call; a call that throws leaves it as it was. *)
Definition registry_call (r : Restaman) (c : RegistryCall) : Restaman :=
  match c with
  | CallAddModel model =>
      match addModel r model with
      | Normal (r', _) => r'
      | Throw _ => r
      end
  | CallRemoveModel name => removeModel r name
  end.

(** The event is an error forwarded to [next]. *)
Definition is_next (e : Event) : Prop :=
  match e with EvNext _ => True | _ => False end.

(** The event answers the request: a response or a forwarded error. *)
Definition is_answer (e : Event) : Prop := is_send e \/ is_next e.

(** The event is a mapper call that writes: an insert, a save or a removal. *)
Definition is_write (e : Event) : Prop :=
  match e with
  | EvMapper (MCreate _ _) | EvMapper (MSave _) | EvMapper (MRemove _) => True
  | _ => False
  end.

(** A table with every key of a list set to the same value. *)
Definition set_all {V} (keys : list string) (v : V) (m : gmap string V)
  : gmap string V :=
  foldl (fun m k => <[k := v]> m) m keys.

(** The request has not been answered so far. *)
Definition unanswered (st : HState) : Prop :=
  Forall (fun e => ~ is_answer e) (hs_trace st).

(** The request has been answered once, by the last event of the trace. *)
Definition answered_once (st : HState) : Prop :=
  exists evs e, hs_trace st = evs ++ [e] /\ is_answer e /\
                Forall (fun e => ~ is_answer e) evs.

(** From a state satisfying [P], the computation ends in a state satisfying
    [Q] when it returns, and with the request unanswered when it throws. *)
Definition settles {A} (P : HState -> Prop) (m : Handler A)
    (Q : A -> HState -> Prop) : Prop :=
  forall st, P st ->
    match m st with
    | (st', Normal a) => Q a st'
    | (st', Throw _) => unanswered st'
    end.

(** The handlers of a wrapper. *)
Inductive Endpoint :=
| OnCreate | OnFind | OnFindOne | OnUpdate | OnDelete | OnCount
| OnCallMethod (method : string)
| OnCallStatic (method : string).

Definition endpoint_handler `{JsBuiltins} (w : ModelWrapper) (env : Mongoose)
    (ep : Endpoint) : Handler unit :=
  match ep with
  | OnCreate => create w env
  | OnFind => find w env
  | OnFindOne => findOne w env
  | OnUpdate => update w env
  | OnDelete => delete w env
  | OnCount => count w env
  | OnCallMethod method => callMethod w env method
  | OnCallStatic method => callStatic w env method
  end.

(** [typeof v === 'undefined'] *)
Definition typeof_undefined (v : JsVal) : bool :=
  match v with VUndefined => true | _ => false end.

(** The option [parseQueryOptions] makes of one key of the query mapping:
    none when [typeof query[key]] is ['undefined']. *)
Definition option_of (query : Obj) (key : string) (format : JsVal -> JsVal) : Obj :=
  match typeof (obj_get query key) with
  | TUndefined => []
  | _ => [(key, format (obj_get query key))]
  end.

(** The handlers that look a document up by its id and then change it. *)
Inductive ByIdAction := ByIdUpdate | ByIdDelete.

Definition by_id_name (a : ByIdAction) : string :=
  match a with ByIdUpdate => "update" | ByIdDelete => "delete" end.

Definition by_id_handler (w : ModelWrapper) (env : Mongoose) (a : ByIdAction)
  : Handler unit :=
  match a with ByIdUpdate => update w env | ByIdDelete => delete w env end.

(** The handlers that call a method of the model by its name. *)
Inductive CallKind := KindStatic | KindMethod.

(** The action under which the hooks of the call are registered. *)
Definition call_action (kind : CallKind) : string :=
  match kind with KindStatic => "static" | KindMethod => "method" end.

Definition call_handler (w : ModelWrapper) (env : Mongoose) (kind : CallKind)
    (method : string) : Handler unit :=
  match kind with
  | KindStatic => callStatic w env method
  | KindMethod => callMethod w env method
  end.

(** The wrapper after a sequence of calls of [exposeStatic]; a call that
    throws leaves it as it was. *)
Definition exposeStatics (w : ModelWrapper) (env : Mongoose) (ms : list MethodArg)
  : ModelWrapper :=
  foldl (fun w m => match exposeStatic w env m with
                    | Normal w' => w'
                    | Throw _ => w
                    end) w ms.

(** ** The models of the test suite *)

(** The text of the numbers of the test suite (identifiers and counts), which
    are whole and small: the digits of the integer part.  It is the text the
    language prints for a whole number of magnitude below ten to the
    twenty-first; the test suite prints no other. *)
Definition whole_number_text (n : JsNumber) : string :=
  match FloatOps.Prim2SF n with
  | SpecFloat.S754_nan => "NaN"
  | SpecFloat.S754_infinity s => if s then "-Infinity" else "Infinity"
  | SpecFloat.S754_zero _ => "0"
  | SpecFloat.S754_finite s m e =>
      (if s then "-" else "") +:+
      pretty (match e with
              | Zneg p => Z.shiftr (Z.pos m) (Z.pos p)
              | _ => Z.shiftl (Z.pos m) e
              end)
  end.

(** Conversions for requests that carry no JSON text and no numeric text:
    nothing parses. *)
Definition no_text : JsBuiltins :=
  {| JSON_parse := fun _ => None; StringToNumber := fun _ => nan;
     NumberToString := whole_number_text |}.

(** [testSchema.statics.exposedStaticMethod] *)
Definition exposedStaticMethod : Member :=
  MFunction ["param1"; "param2"] (fun _ args =>
    let param1 := default VUndefined (args !! 0%nat) in
    let param2 := default VUndefined (args !! 1%nat) in
    RValue (VObj [("message",
                   VStr ("exposedStaticMethod invoked with: param1: '" +:+
                         @ToString no_text param1 +:+ "', param2: '" +:+
                         @ToString no_text param2 +:+ "'"))])).

(** [testSchema.statics.exposedStaticMethod2] *)
Definition exposedStaticMethod2 : Member :=
  MFunction ["param1"; "param2"] (fun _ args =>
    let param1 := default VUndefined (args !! 0%nat) in
    let param2 := default VUndefined (args !! 1%nat) in
    RValue (VObj [("message",
                   VStr ("exposedStaticMethod2 invoked with: param1: '" +:+
                         @ToString no_text param1 +:+ "', param2: '" +:+
                         @ToString no_text param2 +:+ "'"))])).

(** A mapper over an empty collection: what is created, saved or removed is
    handed back, nothing is found. *)
Definition empty_collection (call : MapperCall) : Settled :=
  match call with
  | MCreate _ doc => Resolved doc
  | MFindOne _ _ _ _ => Resolved VNull
  | MFind _ _ _ _ _ => Resolved (VArr [])
  | MCount _ _ => Resolved (VNum 0%float)
  | MSave doc => Resolved doc
  | MRemove doc => Resolved doc
  end.

(** The model [Test] of the test suite. *)
Definition Test : Mongoose :=
  {| schema_statics := {["exposedStaticMethod" := exposedStaticMethod;
                          "exposedStaticMethod2" := exposedStaticMethod2]};
     model_members := {["exposedStaticMethod" := exposedStaticMethod;
                         "exposedStaticMethod2" := exposedStaticMethod2]};
     collectionName := "tests";
     mapper := empty_collection |}.

(** The model [Test] once [{name: 'someName', _id: 1}] has been created: a
    lookup finds that document. *)
Definition Test_with_document : Mongoose :=
  {| schema_statics := schema_statics Test;
     model_members := model_members Test;
     collectionName := "tests";
     mapper := fun call =>
       match call with
       | MFindOne _ _ _ _ =>
           Resolved (VObj [("name", VStr "someName"); ("_id", VNum 1%float)])
       | _ => empty_collection call
       end |}.

(** The model [Post] of the test suite. *)
Definition Post : Mongoose :=
  {| schema_statics := ∅;
     model_members := ∅;
     collectionName := "posts";
     mapper := empty_collection |}.

(** A post hook in the manner of those of the test suite:
    [(req, res, doc) => doc.content = 'from post hook']. *)
Definition addContent : Callback :=
  UserHook 0 (fun req res doc =>
    match set_prop doc "content" (VStr "from post hook") with
    | Normal doc' => Returns req res doc'
    | Throw e => Throws e
    end).

(** Conversions for requests whose only JSON text is [5]. *)
Definition parses_five : JsBuiltins :=
  {| JSON_parse := fun s => if decide (s = "5") then Some (VNum 5%float) else None;
     StringToNumber := fun _ => nan;
     NumberToString := whole_number_text |}.

(** The pre hook of [create] of the test suite:
    [(req, res) => req.body.content = 'from pre create hook']. *)
Definition addBodyContent : Callback :=
  UserHook 1 (fun req res data =>
    match set_prop (body req) "content" (VStr "from pre create hook") with
    | Normal body' =>
        Returns {| body := body'; query := query req; params := params req |} res data
    | Throw e => Throws e
    end).

(** The pre hook of [find] of the test suite:
    [(req, res, query) => query.filter.user = 1]. *)
Definition filterUser : Callback :=
  UserHook 3 (fun req res query =>
    match set_prop (read_prop query "filter") "user" (VNum 1%float) with
    | Normal filter =>
        match set_prop query "filter" filter with
        | Normal query' => Returns req res query'
        | Throw e => Throws e
        end
    | Throw e => Throws e
    end).

(** The pre hook of [delete] of the test suite:
    [() => { throw new Error('Oops!') }]. *)
Definition restrictDelete : Callback :=
  UserHook 2 (fun _ _ _ => Throws (Error "Oops!")).

(** The middleware of [count] of the test suite. *)
Definition restrictCount : Middleware := UserMiddleware 1.

(** The state a request starts in. *)
Definition request (b : JsVal) (q p : Obj) : HState :=
  {| hs_req := {| body := b; query := q; params := p |};
     hs_res := VObj [];
     hs_trace := [] |}.

(** * Properties *)

(** A name is not in a list of other names. *)
Ltac not_in_list :=
  let H := fresh in
  intros H; repeat (apply elem_of_cons in H as [H|H]; [done|]);
  by apply elem_of_nil in H.

(** ** The handler monad *)

Lemma bind_normal {A B} (m : Handler A) (k : A -> Handler B) st st' a :
  m st = (st', Normal a) -> (m ≫= k) st = k a st'.
Proof. intros Hm. unfold mbind, Handler_bind, bind. by rewrite Hm. Qed.

Lemma bind_throw {A B} (m : Handler A) (k : A -> Handler B) st st' e :
  m st = (st', Throw e) -> (m ≫= k) st = (st', Throw e).
Proof. intros Hm. unfold mbind, Handler_bind, bind. by rewrite Hm. Qed.

Lemma bind_get_req {B} (k : Request -> Handler B) st :
  (get_req ≫= k) st = k (hs_req st) st.
Proof. reflexivity. Qed.

Lemma bind_emit {B} (e : Event) (k : unit -> Handler B) st :
  (emit e ≫= k) st = k tt (with_trace st [e]).
Proof. reflexivity. Qed.

Lemma bind_lift_normal {A B} (c : Completion A) (k : A -> Handler B) st a :
  c = Normal a -> (lift c ≫= k) st = k a st.
Proof. by intros ->. Qed.

Lemma catch_normal {A} (m : Handler A) h st st' a :
  m st = (st', Normal a) -> catch m h st = (st', Normal a).
Proof. intros Hm. unfold catch. by rewrite Hm. Qed.

Lemma catch_throw {A} (m : Handler A) h st st' e :
  m st = (st', Throw e) -> catch m h st = h e st'.
Proof. intros Hm. unfold catch. by rewrite Hm. Qed.

Lemma with_trace_app st evs evs' :
  with_trace (with_trace st evs) evs' = with_trace st (evs ++ evs').
Proof. unfold with_trace. cbn. by rewrite app_assoc. Qed.

(** ** Hook registry *)

Section ActionArg_induction.
Variable P : ActionArg -> Prop.
Hypothesis P_Action : forall a, P (Action a).
Hypothesis P_Actions : forall l, Forall P l -> P (Actions l).

Fixpoint ActionArg_nested_ind (action : ActionArg) : P action :=
  match action with
  | Action a => P_Action a
  | Actions l =>
      P_Actions l
        ((fix go (l : list ActionArg) : Forall P l :=
            match l with
            | [] => Forall_nil_2 P
            | x :: l' => Forall_cons_2 P x l' (ActionArg_nested_ind x) (go l')
            end) l)
  end.
End ActionArg_induction.

Lemma hooks_set_hooks w type type' m :
  hooks (set_hooks w type' m) type = if decide (type = type') then m else hooks w type.
Proof. by destruct type, type'. Qed.

Lemma set_hooks_same w type : set_hooks w type (hooks w type) = w.
Proof. by destruct w, type. Qed.

Lemma set_hooks_twice w type m m' :
  set_hooks (set_hooks w type m) type m' = set_hooks w type m'.
Proof. by destruct type. Qed.

Lemma forEach_state_on_table (type : HookType) (callback : Callback)
    (l : list ActionArg) :
  Forall (fun action => forall w,
            addHook w type action callback
            = (set_hooks w type (addHook_table (hooks w type) action callback).1,
               (addHook_table (hooks w type) action callback).2)) l ->
  forall w,
    forEach_state (fun w _action => addHook w type _action callback) l w
    = (set_hooks w type
         (forEach_state (fun t _action => addHook_table t _action callback) l
                        (hooks w type)).1,
       (forEach_state (fun t _action => addHook_table t _action callback) l
                      (hooks w type)).2).
Proof.
  induction 1 as [| x l Hx _ IH]; intros w; cbn [forEach_state].
  - by rewrite set_hooks_same.
  - rewrite Hx.
    destruct (addHook_table (hooks w type) x callback) as [t [[]|e]]; cbn [fst snd].
    + rewrite IH, hooks_set_hooks, decide_True by done. by rewrite set_hooks_twice.
    + done.
Qed.

(** [addHook] changes the hook table of its type, as [addHook_table] says,
    and nothing else. *)
Lemma addHook_on_table action : forall w type callback,
  addHook w type action callback
  = (set_hooks w type (addHook_table (hooks w type) action callback).1,
     (addHook_table (hooks w type) action callback).2).
Proof.
  induction action as [a | l IH] using ActionArg_nested_ind; intros w type callback.
  - cbn [addHook addHook_table action_key].
    destruct (plain_get (hooks w type) a) as [hs|member|] eqn:Hget.
    + by rewrite Hget.
    + rewrite Hget. cbn [fst snd]. by rewrite set_hooks_same.
    + rewrite hooks_set_hooks, decide_True by done.
      assert (Hown : plain_get (<[a := []]> (hooks w type)) a = Own [])
        by (unfold plain_get; by rewrite lookup_insert_eq).
      rewrite !Hown. cbn [fst snd]. by rewrite set_hooks_twice.
  - cbn [addHook addHook_table].
    assert (Hall : Forall (fun action => forall w,
              addHook w type action callback
              = (set_hooks w type (addHook_table (hooks w type) action callback).1,
                 (addHook_table (hooks w type) action callback).2)) l).
    { eapply Forall_impl; [exact IH|]. intros x Hx w0. apply Hx. }
    destruct (plain_get (hooks w type) (action_key (Actions l))) as [hs|member|].
    + apply (forEach_state_on_table type callback l Hall).
    + apply (forEach_state_on_table type callback l Hall).
    + rewrite (forEach_state_on_table type callback l Hall).
      rewrite hooks_set_hooks, decide_True by done. by rewrite set_hooks_twice.
Qed.

Lemma bucket_set_hooks w type type' m key :
  bucket (set_hooks w type' m) type key
  = if decide (type = type') then default [] (m !! key) else bucket w type key.
Proof. unfold bucket. rewrite hooks_set_hooks. by case_decide. Qed.

(** A name that is no member of [Object.prototype] is found in a table as a
    property of its own or not at all. *)
Lemma plain_get_plain {A} (t : gmap string A) k :
  k ∉ Object_prototype ->
  plain_get t k = match t !! k with Some a => Own a | None => Missing end.
Proof.
  intros Hk. unfold plain_get. destruct (t !! k); [done|].
  by rewrite bool_decide_eq_false_2.
Qed.

(** Creating the empty list under a key leaves every list as it reads. *)
Lemma read_ensure (t : gmap string (list Callback)) key k :
  default [] (match plain_get t key with
              | Missing => <[key := []]> t
              | _ => t
              end !! k)
  = default [] (t !! k).
Proof.
  unfold plain_get. destruct (t !! key) eqn:Hkey; [done|].
  case_bool_decide; [done|].
  destruct (decide (key = k)) as [->|Hne].
  - by rewrite lookup_insert_eq, Hkey.
  - by rewrite lookup_insert_ne.
Qed.

(** Under action names that are no members of [Object.prototype],
    [addHook] returns, having added the callback at the end of the list of
    each name. *)
Lemma addHook_table_plain action : forall t callback,
  plain_names action ->
  (addHook_table t action callback).2 = Normal tt /\
  forall key,
    default [] ((addHook_table t action callback).1 !! key)
    = default [] (t !! key)
      ++ ((fun _ => callback) <$> filter (fun a => a = key) (action_names action)).
Proof.
  induction action as [a | l IH] using ActionArg_nested_ind; intros t callback Hplain.
  - unfold plain_names in Hplain. cbn [action_names] in Hplain.
    rewrite Forall_singleton in Hplain.
    cbn [addHook_table action_key action_names].
    set (t1 := match plain_get t a with Missing => _ | _ => t end).
    assert (Hread : forall k, default [] (t1 !! k) = default [] (t !! k))
      by (intros k; apply read_ensure).
    assert (Hown : plain_get t1 a = Own (default [] (t !! a))).
    { subst t1. rewrite !plain_get_plain by done.
      destruct (t !! a) eqn:Ha; [by rewrite Ha|]. by rewrite lookup_insert_eq. }
    rewrite Hown. cbn [fst snd]. split; [done|]. intros key.
    rewrite filter_cons, filter_nil.
    destruct (decide (a = key)) as [->|Hne].
    + by rewrite lookup_insert_eq.
    + rewrite lookup_insert_ne by done. cbn. by rewrite app_nil_r.
  - cbn [addHook_table action_names].
    set (t1 := match plain_get t _ with Missing => _ | _ => t end).
    assert (Hread : forall k, default [] (t1 !! k) = default [] (t !! k))
      by (intros k; apply read_ensure).
    clearbody t1. unfold plain_names in Hplain. cbn [action_names] in Hplain.
    setoid_rewrite <- Hread. clear Hread t. revert t1.
    induction IH as [| x l Hx _ IHl]; intros t1.
    + cbn. split; [done|]. intros key. by rewrite app_nil_r.
    + cbn [flat_map] in Hplain. apply Forall_app in Hplain as [Hpx Hpl].
      cbn [forEach_state flat_map].
      destruct (Hx t1 callback Hpx) as [Hret Hadd].
      destruct (addHook_table t1 x callback) as [t2 c]. cbn [fst snd] in Hret, Hadd.
      subst c. destruct (IHl Hpl t2) as [Hret' Hadd'].
      split; [done|]. intros key.
      by rewrite Hadd', Hadd, filter_app, fmap_app, app_assoc.
Qed.

(** What one [addHook] adds to a list of the table. *)
Lemma bucket_addHook action : forall w type' callback type key,
  plain_names action ->
  bucket (addHook w type' action callback).1 type key
  = bucket w type key
    ++ registers {| reg_type := type'; reg_action := action;
                    reg_callback := callback |} type key.
Proof.
  intros w type' callback type key Hplain.
  rewrite addHook_on_table. cbn [fst]. rewrite bucket_set_hooks.
  unfold registers. cbn [reg_type reg_action reg_callback].
  destruct (decide (type = type')) as [->|Hne].
  - rewrite decide_True by done.
    by destruct (addHook_table_plain action (hooks w type') callback Hplain) as [_ ->].
  - rewrite decide_False by done. by rewrite app_nil_r.
Qed.

Lemma addHook_returns action w type callback :
  plain_names action -> (addHook w type action callback).2 = Normal tt.
Proof.
  intros Hplain. rewrite addHook_on_table. cbn [snd].
  by destruct (addHook_table_plain action (hooks w type) callback Hplain).
Qed.


(** The list [applyHooks] goes through, for an action name that is no member
    of [Object.prototype]. *)
Lemma hooksToApply_buckets w type action :
  action ∉ Object_prototype ->
  hooksToApply w type action = bucket w type action ++ bucket w type "all".
Proof.
  intros Haction.
  assert (Hall : "all" ∉ Object_prototype) by not_in_list.
  unfold hooksToApply, bucket. rewrite !plain_get_plain by done.
  destruct (hooks w type !! action), (hooks w type !! "all"); cbn;
    by rewrite ?app_nil_r.
Qed.

Lemma invoked_in_turn_hook_events w type action l req res data evs :
  invoked_in_turn w type action l req res data evs ->
  Forall (hook_event type action) evs.
Proof.
  induction 1; repeat constructor; auto.
Qed.

Lemma callHook_returns w type action hook data st req' res' data' :
  invoke w hook (hs_req st) (hs_res st) data = Returns req' res' data' ->
  callHook w type action hook data st
  = ({| hs_req := req'; hs_res := res';
        hs_trace := hs_trace st ++
          [EvHook type action hook (hs_req st) (hs_res st) data] |},
     Normal (by_reference data data')).
Proof. intros Hinv. unfold callHook. by rewrite Hinv. Qed.

Lemma callHook_throws w type action hook data st e :
  invoke w hook (hs_req st) (hs_res st) data = Throws e ->
  callHook w type action hook data st
  = ({| hs_req := hs_req st; hs_res := hs_res st;
        hs_trace := hs_trace st ++
          [EvHook type action hook (hs_req st) (hs_res st) data] |},
     Throw e).
Proof. intros Hinv. unfold callHook. by rewrite Hinv. Qed.

(** The loop of [applyHooks] invokes the callbacks of its list in turn. *)
Lemma callHooks_in_turn w type action l : forall data st,
  exists evs,
    hs_trace (callHooks w type action l data st).1 = hs_trace st ++ evs /\
    invoked_in_turn w type action l (hs_req st) (hs_res st) data evs /\
    (forall data', (callHooks w type action l data st).2 = Normal data' ->
                   hooks_called evs = l).
Proof.
  induction l as [| hook l IH]; intros data st.
  - exists []. cbn. rewrite app_nil_r. split; [done|]. split; [constructor | done].
  - cbn [callHooks].
    destruct (invoke w hook (hs_req st) (hs_res st) data) as [req' res' data'|e] eqn:Hinv.
    + rewrite (bind_normal _ _ _ _ _ (callHook_returns w type action hook data st _ _ _ Hinv)).
      destruct (IH (by_reference data data')
                   {| hs_req := req'; hs_res := res';
                      hs_trace := hs_trace st ++
                        [EvHook type action hook (hs_req st) (hs_res st) data] |})
        as (evs & Htr & Hturn & Hcalled).
      exists (EvHook type action hook (hs_req st) (hs_res st) data :: evs).
      cbn in Htr, Hturn. rewrite Htr. split; [by rewrite <- app_assoc|].
      split; [by eapply in_turn_returns|].
      intros d Hd. cbn. f_equal. eauto.
    + rewrite (bind_throw _ _ _ _ _ (callHook_throws w type action hook data st _ Hinv)).
      exists [EvHook type action hook (hs_req st) (hs_res st) data]. cbn.
      split; [done|]. split; [by eapply in_turn_throws|]. done.
Qed.

(** A run of [applyHooks] adds hook invocations under [(type, action)] to the
    trace and nothing else. *)
Lemma applyHooks_trace w type action data st :
  exists evs,
    hs_trace (applyHooks w type action data st).1 = hs_trace st ++ evs /\
    Forall (hook_event type action) evs.
Proof.
  destruct (callHooks_in_turn w type action (hooksToApply w type action) data st)
    as (evs & Htr & Hturn & _).
  exists evs. split; [done|]. by eapply invoked_in_turn_hook_events.
Qed.


(** ** Exposed methods *)

Lemma list_find_first {A} (P : A -> Prop) `{forall x, Decision (P x)}
    (l : list A) i x :
  l !! i = Some x -> P x ->
  (forall j y, j < i -> l !! j = Some y -> ~ P y) ->
  list_find P l = Some (i, x).
Proof.
  intros Hi HP Hbefore. apply list_find_Some. eauto.
Qed.

Lemma list_find_absent {A} (P : A -> Prop) `{forall x, Decision (P x)}
    (l : list A) :
  (forall x, x ∈ l -> ~ P x) -> list_find P l = None.
Proof.
  intros Hno. apply list_find_None. by apply Forall_forall.
Qed.

(** [schema.statics[name] instanceof Function], spelled out: the schema has
    a function under the name, or it has nothing under it and the name is that
    of a function of [Object.prototype]. *)
Lemma slot_instanceof_Function_iff (env : Mongoose) (k : string) :
  slot_instanceof_Function (plain_get (schema_statics env) k) = true <->
  (exists paramNames impl,
     schema_statics env !! k = Some (MFunction paramNames impl)) \/
  (schema_statics env !! k = None /\ k ∈ Object_prototype /\ k <> "__proto__").
Proof.
  unfold plain_get.
  destruct (schema_statics env !! k) as [[ps impl|v]|] eqn:Hk; cbn.
  - split; [eauto|done].
  - split; [done|]. by intros [(? & ? & ?)|[? _]].
  - case_bool_decide as Hin; cbn.
    + destruct (String.eqb_spec k "__proto__") as [->|Hne]; cbn.
      * split; [done|]. by intros [(? & ? & ?)|(_ & _ & ?)].
      * split; [|done]. intros _. by right.
    + split; [done|]. by intros [(? & ? & ?)|(_ & ? & _)].
Qed.

(** C8, as the code has it.  [exposeStatic(m)] throws exactly when the read
    [schema.statics[name]] gives no function; the read finds the statics of
    the schema and, under a name the schema does not have, the functions a
    plain object inherits from [Object.prototype].  When it does not throw,
    nothing but the statics list changes: if a descriptor with the same
    [exposeName] is in the list, the new descriptor takes the place of the
    first such one and the length of the list is unchanged; otherwise the
    descriptor is added at the end. *)
Theorem exposeStatic_replaces_or_appends
    (w : ModelWrapper) (env : Mongoose) (m : MethodArg) :
  let d := descriptor m in
  ((exists e, exposeStatic w env m = Throw e) <->
   ~ ((exists paramNames impl,
         schema_statics env !! name d = Some (MFunction paramNames impl)) \/
      (schema_statics env !! name d = None /\
       name d ∈ Object_prototype /\ name d <> "__proto__"))) /\
  forall w', exposeStatic w env m = Normal w' ->
    methods w' = methods w /\ hidden w' = hidden w /\
    hooks_pre w' = hooks_pre w /\ hooks_post w' = hooks_post w /\
    middlewares w' = middlewares w /\
    (forall i d0,
        statics w !! i = Some d0 -> exposeName d0 = exposeName d ->
        (forall j d1, j < i -> statics w !! j = Some d1 ->
                      exposeName d1 <> exposeName d) ->
        statics w' = <[i := d]> (statics w) /\
        statics w' !! i = Some d /\
        length (statics w') = length (statics w)) /\
    ((forall d0, d0 ∈ statics w -> exposeName d0 <> exposeName d) ->
     statics w' = statics w ++ [d]).
Proof.
  intros d. rewrite <- slot_instanceof_Function_iff.
  unfold exposeStatic. fold d.
  destruct (slot_instanceof_Function _) eqn:Hm; cbn.
  - split.
    + split; [|done]. intros [e He]. by destruct (list_find _ _) as [[? ?]|].
    + intros w' Hw'.
      do 5 (split; [by destruct (list_find _ _) as [[? ?]|]; inversion Hw'|]).
      split.
      * intros i d0 Hi Heq Hfirst.
        rewrite (list_find_first _ _ i d0 Hi Heq Hfirst) in Hw'.
        inversion Hw'; subst w'. cbn. split; [done|].
        split; [|by rewrite length_insert].
        apply list_lookup_insert_eq. by eapply lookup_lt_Some.
      * intros Hno. rewrite list_find_absent in Hw' by done.
        by inversion Hw'.
  - split; [|done]. split; [done|eauto].
Qed.

(** The expose names of the statics list stay pairwise distinct. *)
Lemma exposeStatic_keeps_unique (w w' : ModelWrapper) (env : Mongoose) (m : MethodArg) :
  NoDup (exposeName <$> statics w) ->
  exposeStatic w env m = Normal w' ->
  NoDup (exposeName <$> statics w').
Proof.
  intros Hnd Hrun. unfold exposeStatic in Hrun.
  destruct (slot_instanceof_Function _); [|done].
  destruct (list_find _ _) as [[i d0]|] eqn:Hfind; inversion Hrun; subst w'; cbn.
  - apply list_find_Some in Hfind as (Hi & Heq & _).
    rewrite list_fmap_insert, list_insert_id; [done|].
    by rewrite list_lookup_fmap, Hi, <- Heq.
  - rewrite fmap_app. apply NoDup_app. split; [done|].
    split; [|apply NoDup_singleton].
    intros x Hx Hx'. apply list_elem_of_singleton in Hx' as ->.
    apply list_elem_of_fmap in Hx as (d0 & Heq & Hd0).
    apply list_find_None in Hfind. rewrite Forall_forall in Hfind.
    by apply (Hfind d0).
Qed.

(** C9.  [static(m)] delegates to [exposeMethod]: when [m] names a function
    on the model, the descriptor is added at the end of the instance-methods
    list, the statics list is unchanged, and so is the route table: every
    route that calls a static method comes from a descriptor of the statics
    list. *)
Theorem static_registers_a_method
    (w : ModelWrapper) (env : Mongoose) (m : MethodArg) :
  instanceof_Function (model_members env !! name (descriptor m)) = true ->
  exists w',
    static w env m = Normal w' /\
    static w env m = exposeMethod w env m /\
    getMethods w' = getMethods w ++ [descriptor m] /\
    getStatics w' = getStatics w /\
    setupModelRoutes w' env = setupModelRoutes w env /\
    forall r method,
      r ∈ setupModelRoutes w' env -> route_handler r = RunCallStatic method ->
      exists d, d ∈ getStatics w /\ name d = method /\
                route_verb r = POST /\
                route_path r = "/" +:+ collectionName env +:+ "/" +:+ exposeName d.
Proof.
  intros Hfun. unfold static, exposeMethod. rewrite Hfun.
  eexists. split; [done|]. split; [done|]. split; [done|]. split; [done|].
  split; [done|].
  intros r method0 Hr Hh. unfold setupModelRoutes in Hr.
  apply elem_of_app in Hr as [Hr|Hr].
  - apply list_elem_of_fmap in Hr as (d & -> & Hd). cbn in *.
    exists d. inversion Hh. by repeat split.
  - repeat (apply elem_of_cons in Hr as [->|Hr]; [by cbn in Hh|]).
    by apply elem_of_nil in Hr.
Qed.

(** ** Query parser *)

(** C6.  What [parseQueryOptions] does with [start]: a query mapping with
    [start] and without [skip] gives no [skip] option at all, whatever [start]
    is; [start] is read only when [skip] is present and falsy. *)
Theorem parseQueryOptions_start_needs_skip `{JsBuiltins} (start : JsVal) :
  parseQueryOptions [("start", start)] = VObj [] /\
  parseQueryOptions [("skip", VStr ""); ("start", start)]
  = VObj [("skip", VNum (ToNumber start))].
Proof.
  split.
  - reflexivity.
  - unfold parseQueryOptions. cbn. reflexivity.
Qed.

(** X21.  The options that do follow the query mapping: the options object
    holds, in this order, [sort], [skip] and [limit], each only if the query
    mapping has a value other than [undefined] for it, and nothing else;
    [sort] is converted to a string, [limit] to a number, and [skip] to the
    number of [skip] when truthy, else of [start]. *)
Theorem parseQueryOptions_present `{JsBuiltins} (query : Obj) :
  parseQueryOptions query
  = VObj (option_of query "sort" (fun v => VStr (ToString v)) ++
          option_of query "skip"
            (fun v => VNum (ToNumber (js_or v (obj_get query "start")))) ++
          option_of query "limit" (fun v => VNum (ToNumber v))) /\
  forall key format,
    obj_keys (option_of query key format)
    = if typeof_undefined (obj_get query key) then [] else [key].
Proof.
  split.
  - unfold parseQueryOptions, formatters, option_of. cbn [foldl fst snd].
    destruct (typeof (obj_get query "sort")); cbn [app];
      destruct (typeof (obj_get query "skip")); cbn [app];
      destruct (typeof (obj_get query "limit")); reflexivity.
  - intros key format. unfold option_of, typeof_undefined.
    by destruct (obj_get query key).
Qed.

(** ** create *)

(** The guard of [create] is true for arrays only: [!req.body instanceof
    Object] applies [instanceof] to the boolean [!req.body]. *)
Lemma create_guard_arrays_only (v : JsVal) :
  instanceof_Array v || instanceof_Object (js_not v) = instanceof_Array v.
Proof. unfold js_not. cbn. by rewrite orb_false_r. Qed.

(** X22.  An array body is refused before anything else happens. *)
Lemma create_array_body (w : ModelWrapper) (env : Mongoose)
    (req : Request) (res : JsVal) (elems : list JsVal) :
  body req = VArr elems ->
  run (create w env) req res
  = ({| hs_req := req; hs_res := res; hs_trace := [EvNext OnlyObjectsAllowed] |},
     Normal tt).
Proof.
  intros Hb. unfold run, create, mbind, Handler_bind, bind, get_req. cbn.
  by rewrite Hb.
Qed.

(** A name checked against the members of [Object.prototype]. *)
Lemma plain_name (action : string) :
  Is_true (bool_decide (action ∉ Object_prototype)) -> action ∉ Object_prototype.
Proof. apply bool_decide_unpack. Qed.

Lemma bucket_new n type action : bucket (new_ModelWrapper n) type action = [].
Proof. unfold bucket. destruct type; cbn; by rewrite lookup_empty. Qed.

Lemma hooksToApply_new n type action :
  action ∉ Object_prototype ->
  hooksToApply (new_ModelWrapper n) type action = [].
Proof. intros Ha. by rewrite hooksToApply_buckets, !bucket_new. Qed.

Lemma applyHooks_new n type action data st :
  action ∉ Object_prototype ->
  applyHooks (new_ModelWrapper n) type action data st = (st, Normal data).
Proof. intros Ha. unfold applyHooks. by rewrite hooksToApply_new. Qed.

Lemma initModel_new n st :
  initModel (new_ModelWrapper n) st
  = (st, Normal (model (new_ModelWrapper n) (VObj []))).
Proof.
  assert (Hinit : "init" ∉ Object_prototype) by not_in_list.
  unfold initModel.
  rewrite (bind_normal _ _ _ _ _ (applyHooks_new n _ _ _ st Hinit)).
  by apply applyHooks_new.
Qed.

(** C1.  A body that is not an object is not refused: with a string as the
    body, [create] on a new wrapper forwards no validation error and hands the
    string to the mapper's insert. *)
Theorem create_accepts_string_body
    (n : string) (env : Mongoose) (s : string) (q p : Obj) (res : JsVal) :
  let req := {| body := VStr s; query := q; params := p |} in
  let insert := EvMapper (MCreate (model (new_ModelWrapper n) (VObj [])) (VStr s)) in
  hs_trace (run (create (new_ModelWrapper n) env) req res).1
  = insert :: match mapper env (MCreate (model (new_ModelWrapper n) (VObj [])) (VStr s)) with
              | Resolved doc => [EvSend doc]
              | Rejected e => [EvNext e]
              end.
Proof.
  intros req insert. unfold run, create.
  assert (Hcreate : "create" ∉ Object_prototype) by not_in_list.
  set (st := {| hs_req := req; hs_res := res; hs_trace := [] |}).
  rewrite (bind_normal get_req _ st st req eq_refl). cbn [body req instanceof_Array orb js_not instanceof_Object].
  rewrite (bind_normal _ _ _ _ _ (initModel_new n st)).
  rewrite (bind_normal _ _ _ _ _ (applyHooks_new n _ _ _ st Hcreate)).
  rewrite (bind_normal get_req _ st st req eq_refl).
  unfold catch, await, mbind, Handler_bind, bind, emit. cbn.
  destruct (mapper env _); cbn; rewrite ?applyHooks_new by done; reflexivity.
Qed.

(** ** Model resolution *)

Lemma initModel_trace (w : ModelWrapper) (st : HState) :
  exists evs,
    hs_trace (initModel w st).1 = hs_trace st ++ evs /\ Forall init_event evs.
Proof.
  unfold initModel.
  destruct (applyHooks_trace w type_pre "init" (VObj []) st) as (evs1 & Htr1 & Hev1).
  destruct (applyHooks w type_pre "init" (VObj []) st) as [st1 [params|e]] eqn:Hpre.
  - rewrite (bind_normal _ _ _ _ _ Hpre).
    destruct (applyHooks_trace w type_post "init" (model w params) st1)
      as (evs2 & Htr2 & Hev2).
    exists (evs1 ++ evs2). cbn in Htr1. rewrite Htr2, Htr1, app_assoc.
    split; [done|]. apply Forall_app. split.
    + eapply Forall_impl; [exact Hev1|]. intros e He. by left.
    + eapply Forall_impl; [exact Hev2|]. intros e He. by right.
  - rewrite (bind_throw _ _ _ _ _ Hpre). exists evs1. split; [done|].
    eapply Forall_impl; [exact Hev1|]. intros e' He. by left.
Qed.

(** ** Lookup by id *)

Lemma await_resolved (env : Mongoose) (call : MapperCall) (v : JsVal) st :
  mapper env call = Resolved v ->
  await env call st = (with_trace st [EvMapper call], Normal v).
Proof.
  intros Hm. unfold await. rewrite bind_emit. by rewrite Hm.
Qed.

Lemma findById_miss (env : Mongoose) (id model doc : JsVal) st :
  mapper env (MFindOne model (VObj [("_id", id)]) VUndefined None) = Resolved doc ->
  truthy doc = false ->
  findById env id model st
  = (with_trace st [EvMapper (MFindOne model (VObj [("_id", id)]) VUndefined None)],
     Throw ModelNotFound).
Proof.
  intros Hm Hdoc. unfold findById.
  rewrite (bind_normal _ _ _ _ _ (await_resolved env _ _ st Hm)).
  by rewrite Hdoc.
Qed.

(** ** update and delete *)

(** C5, as the code has it.  When the lookup by id finds no document,
    [update] and [delete] forward to [next] the error of [findById], whose
    [status] is 404 and which is not the [NotFoundError] of [findOne]; besides
    the hooks of model resolution, which run under the action [init], nothing
    is invoked: no hook of the action and no mapper call after the lookup. *)
Theorem update_delete_not_found
    (w : ModelWrapper) (env : Mongoose) (st st1 : HState) (model : JsVal) :
  let lookup :=
    MFindOne model (VObj [("_id", obj_get (params (hs_req st1)) "id")]) VUndefined None in
  initModel w st = (st1, Normal model) ->
  mapper env lookup = Resolved VNull ->
  update w env st = (with_trace st1 [EvMapper lookup; EvNext ModelNotFound], Normal tt) /\
  delete w env st = (with_trace st1 [EvMapper lookup; EvNext ModelNotFound], Normal tt) /\
  read_prop ModelNotFound "status" = VNum 404%float /\
  ModelNotFound <> NotFoundError /\
  exists evs,
    hs_trace (with_trace st1 [EvMapper lookup; EvNext ModelNotFound])
    = hs_trace st ++ evs ++ [EvMapper lookup; EvNext ModelNotFound] /\
    Forall init_event evs.
Proof.
  intros lookup Hinit Hmiss.
  assert (Hfind : forall st', findById env (obj_get (params (hs_req st1)) "id") model st'
                   = (with_trace st' [EvMapper lookup], Throw ModelNotFound)).
  { intros st'. by apply (findById_miss env _ _ VNull). }
  split; [|split; [|split; [done|split; [done|]]]].
  - unfold update. rewrite (bind_normal _ _ _ _ _ Hinit), bind_get_req.
    erewrite catch_throw; [|by erewrite bind_throw].
    unfold next, emit, with_trace. cbn. by rewrite <- app_assoc.
  - unfold delete. rewrite (bind_normal _ _ _ _ _ Hinit), bind_get_req.
    erewrite catch_throw; [|by erewrite bind_throw].
    unfold next, emit, with_trace. cbn. by rewrite <- app_assoc.
  - destruct (initModel_trace w st) as (evs & Htr & Hev). rewrite Hinit in Htr.
    exists evs. cbn in *. rewrite Htr. by rewrite app_assoc.
Qed.

Lemma next_eq (e : JsVal) st : next e st = (with_trace st [EvNext e], Normal tt).
Proof. reflexivity. Qed.

Lemma send_eq (v : JsVal) st : send v st = (with_trace st [EvSend v], Normal tt).
Proof. reflexivity. Qed.

Lemma init_event_not_send e : init_event e -> ~ is_send e.
Proof. unfold init_event. destruct e; cbn; tauto. Qed.

Lemma hook_event_not_send type action e : hook_event type action e -> ~ is_send e.
Proof. destruct e; cbn; tauto. Qed.

Lemma init_event_other_action type action e :
  action <> "init" -> init_event e -> ~ hook_event type action e.
Proof.
  intros Hne Hinit Hev. destruct e; try done.
  destruct Hev as [_ ->]. by destruct Hinit as [[_ ?]|[_ ?]].
Qed.

(** ** findOne *)

Lemma write_shared_filter_unshared (filter : JsVal) (st : HState) :
  unshared (query (hs_req st)) -> write_shared_filter filter st = (st, Normal tt).
Proof.
  intros Hq. apply Forall_cons in Hq as [Hfilter _].
  unfold write_shared_filter. by rewrite Hfilter.
Qed.

Lemma write_shared_filter_trace (filter : JsVal) (st : HState) :
  hs_trace (write_shared_filter filter st).1 = hs_trace st.
Proof. unfold write_shared_filter. by destruct (instanceof_Object _). Qed.

Lemma write_shared_filter_returns (filter : JsVal) (st : HState) :
  write_shared_filter filter st = ((write_shared_filter filter st).1, Normal tt).
Proof. unfold write_shared_filter. by destruct (instanceof_Object _). Qed.

(** Hooks that leave the shared objects alone leave them as they were when
    all of them have run. *)
Lemma callHooks_keeps_shared w type action l :
  Forall (keeps_shared w) l -> forall data st st' data',
  callHooks w type action l data st = (st', Normal data') ->
  query (hs_req st') = query (hs_req st) /\
  Forall (fun k => read_prop data' k = read_prop data k) shared_parameters.
Proof.
  induction 1 as [| hook l Hhook _ IH]; intros data st st' data' Hrun.
  - inversion Hrun. split; [done|]. by apply Forall_true.
  - cbn [callHooks] in Hrun.
    destruct (invoke w hook (hs_req st) (hs_res st) data) as [req1 res1 data1|e] eqn:Hinv.
    + rewrite (bind_normal _ _ _ _ _ (callHook_returns w type action hook data st _ _ _ Hinv)) in Hrun.
      destruct (Hhook _ _ _ _ _ _ Hinv) as [Hq Hf].
      destruct (IH _ _ _ _ Hrun) as [Hq' Hf']. cbn in Hq'.
      split; [congruence|].
      rewrite Forall_forall in Hf, Hf'. apply Forall_forall. intros k Hk.
      by rewrite Hf', Hf.
    + by rewrite (bind_throw _ _ _ _ _ (callHook_throws w type action hook data st _ Hinv)) in Hrun.
Qed.

(** C4.  In [findOne], once the lookup is reached: when the mapper yields
    [null], the [NotFoundError] (status code 404, message "Document Not
    Found") is forwarded to [next], nothing is sent and no post hook of
    [findOne] is invoked; when it yields a document, the post hooks of
    [findOne] are invoked on it and, when they return, the document is sent as
    they left it.  The pre hooks run on the request as the write of [_id]
    into a shared filter left it; the statement is for a request and pre hooks
    of [findOne] that are in step, and pre hooks that leave the shared
    objects alone give a lookup by the filter with that [_id]. *)
Theorem findOne_null_or_document `{JsBuiltins}
    (w : ModelWrapper) (env : Mongoose) (st st1 st2 : HState)
    (model filter query1 query2 : JsVal) :
  let query0 := parseQuery (query (hs_req st1)) in
  let written := (write_shared_filter filter st1).1 in
  let populate := read_prop query2 "populate" in
  let lookup :=
    MFindOne model (read_prop query2 "filter") (read_prop query2 "projection")
             (if truthy populate then Some populate else None) in
  initModel w st = (st1, Normal model) ->
  set_prop (read_prop query0 "filter") "_id" (obj_get (params (hs_req st1)) "id")
  = Normal filter ->
  set_prop query0 "filter" filter = Normal query1 ->
  in_step w "findOne" (query (hs_req st1)) ->
  applyHooks w type_pre "findOne" query1 written = (st2, Normal query2) ->
  (mapper env lookup = Resolved VNull ->
   findOne w env st
   = (with_trace st2 [EvMapper lookup; EvNext NotFoundError], Normal tt) /\
   read_prop NotFoundError "statusCode" = VNum 404%float /\
   read_prop NotFoundError "message" = VStr "Document Not Found" /\
   exists evs,
     hs_trace st2 = hs_trace st ++ evs /\
     Forall (fun e => ~ is_send e /\ ~ hook_event type_post "findOne" e)
            (evs ++ [EvMapper lookup; EvNext NotFoundError])) /\
  (forall doc st3 doc',
     mapper env lookup = Resolved doc -> truthy doc = true ->
     applyHooks w type_post "findOne" doc (with_trace st2 [EvMapper lookup])
     = (st3, Normal doc') ->
     findOne w env st = (with_trace st3 [EvSend doc'], Normal tt) /\
     exists evs,
       hs_trace st3 = hs_trace st2 ++ EvMapper lookup :: evs /\
       invoked_in_turn w type_post "findOne" (hooksToApply w type_post "findOne")
                       (hs_req st2) (hs_res st2) doc evs /\
       hooks_called evs = hooksToApply w type_post "findOne") /\
  (unshared (query (hs_req st1)) -> written = st1) /\
  (Forall (keeps_shared w) (hooksToApply w type_pre "findOne") ->
   query (hs_req st2) = query (hs_req written) /\
   read_prop query2 "filter" = read_prop query1 "filter").
Proof.
  intros query0 written populate lookup Hinit Hfilter Hquery _ Hpre.
  assert (Hstart : findOne w env st
    = catch (doc ← await env lookup;
             (if negb (truthy doc) then throw NotFoundError else mret tt);;
             doc ← applyHooks w type_post "findOne" doc;
             send doc) next st2).
  { unfold findOne. rewrite (bind_normal _ _ _ _ _ Hinit), bind_get_req.
    fold query0. rewrite (bind_lift_normal _ _ _ _ Hfilter).
    rewrite (bind_normal _ _ _ _ _ (write_shared_filter_returns filter st1)).
    fold written. rewrite (bind_lift_normal _ _ _ _ Hquery).
    by rewrite (bind_normal _ _ _ _ _ Hpre). }
  split; [|split; [|split]].
  - intros Hnull. split; [|split; [done|split; [done|]]].
    + rewrite Hstart.
      erewrite catch_throw;
        [|erewrite bind_normal by (by apply await_resolved); by cbn].
      rewrite next_eq. by rewrite with_trace_app.
    + destruct (initModel_trace w st) as (evs1 & Htr1 & Hev1).
      rewrite Hinit in Htr1. cbn in Htr1.
      destruct (applyHooks_trace w type_pre "findOne" query1 written)
        as (evs2 & Htr2 & Hev2).
      rewrite Hpre in Htr2. cbn in Htr2.
      unfold written in Htr2. rewrite write_shared_filter_trace in Htr2.
      exists (evs1 ++ evs2). rewrite Htr2, Htr1, app_assoc. split; [done|].
      rewrite !Forall_app. split; [split|].
      * eapply Forall_impl; [exact Hev1|]. intros e He.
        split; [by apply init_event_not_send|by apply init_event_other_action].
      * eapply Forall_impl; [exact Hev2|]. intros e He.
        split; [by eapply hook_event_not_send|].
        destruct e; try done. by intros [? _]; destruct He as [-> _].
      * repeat constructor; by cbn; try intros [].
  - intros doc st3 doc' Hdoc Htruthy Hpost. split.
    + rewrite Hstart.
      erewrite catch_normal; [done|].
      erewrite bind_normal by (by apply await_resolved).
      rewrite Htruthy. cbn [negb].
      erewrite (bind_normal (mret tt)) by reflexivity.
      rewrite (bind_normal _ _ _ _ _ Hpost). by rewrite send_eq.
    + destruct (callHooks_in_turn w type_post "findOne"
                  (hooksToApply w type_post "findOne") doc
                  (with_trace st2 [EvMapper lookup])) as (evs & Htr & Hturn & Hcalled).
      fold (applyHooks w type_post "findOne" doc) in Htr, Hcalled.
      rewrite Hpost in Htr, Hcalled. cbn in Htr, Hturn.
      exists evs. rewrite Htr, <- app_assoc. split; [done|]. split; [done|].
      by eapply Hcalled.
  - intros Hunshared. unfold written.
    by rewrite write_shared_filter_unshared.
  - intros Hkeep.
    destruct (callHooks_keeps_shared w type_pre "findOne" _ Hkeep _ _ _ _ Hpre)
      as [Hq Hshared].
    split; [done|]. by apply Forall_cons in Hshared as [Hf _].
Qed.

(** ** count *)

(** A callback cannot replace a payload that is not an object. *)
Lemma callHooks_primitive w type action l : forall data st st' data',
  instanceof_Object data = false ->
  callHooks w type action l data st = (st', Normal data') -> data' = data.
Proof.
  induction l as [| hook l IH]; intros data st st' data' Hprim Hrun.
  - by inversion Hrun.
  - cbn [callHooks] in Hrun.
    destruct (invoke w hook (hs_req st) (hs_res st) data) as [req1 res1 data1|e] eqn:Hinv.
    + rewrite (bind_normal _ _ _ _ _ (callHook_returns w type action hook data st _ _ _ Hinv)) in Hrun.
      assert (Hsame : by_reference data data1 = data) by (by destruct data).
      rewrite Hsame in Hrun. eauto.
    + by rewrite (bind_throw _ _ _ _ _ (callHook_throws w type action hook data st _ Hinv)) in Hrun.
Qed.

Lemma by_reference_same v : by_reference v v = v.
Proof. by destruct v. Qed.

(** Hooks that leave the query mapping and the filter alone leave them as
    they were when all of them have run. *)
Lemma callHooks_keeps_query w type action l :
  Forall (keeps_query w) l -> forall data st st' data',
  callHooks w type action l data st = (st', Normal data') ->
  query (hs_req st') = query (hs_req st) /\
  read_prop data' "filter" = read_prop data "filter".
Proof.
  induction 1 as [| hook l Hhook _ IH]; intros data st st' data' Hrun.
  - by inversion Hrun.
  - cbn [callHooks] in Hrun.
    destruct (invoke w hook (hs_req st) (hs_res st) data) as [req1 res1 data1|e] eqn:Hinv.
    + rewrite (bind_normal _ _ _ _ _ (callHook_returns w type action hook data st _ _ _ Hinv)) in Hrun.
      destruct (Hhook _ _ _ _ _ _ Hinv) as [Hq Hf].
      destruct (IH _ _ _ _ Hrun) as [Hq' Hf']. cbn in Hq'.
      split; congruence.
    + by rewrite (bind_throw _ _ _ _ _ (callHook_throws w type action hook data st _ Hinv)) in Hrun.
Qed.

(** C10.  In [count], the query descriptor is parsed from [{filter:
    req.query}]: its filter is the whole query-string mapping, whatever keys
    the mapping has, and nothing else is parsed from it.  With pre hooks of
    [count] that leave the query mapping of the request and the filter of the
    descriptor as they are, the mapper's [count] is called with the whole
    mapping as the filter, and the response is [{count: n}] for the number
    [n] the mapper yields. *)
Theorem count_filters_by_whole_query `{JsBuiltins}
    (w : ModelWrapper) (env : Mongoose) (st st1 st2 : HState)
    (model query2 : JsVal) :
  let mapping := VObj (query (hs_req st1)) in
  let query0 := parseQuery [("filter", mapping)] in
  initModel w st = (st1, Normal model) ->
  Forall (keeps_query w) (hooksToApply w type_pre "count") ->
  applyHooks w type_pre "count" query0 st1 = (st2, Normal query2) ->
  query0 = VObj [("filter", mapping); ("populate", VUndefined);
                 ("options", VObj []); ("projection", VNull)] /\
  query (hs_req st2) = query (hs_req st1) /\
  read_prop query2 "filter" = mapping /\
  forall n st3 n',
    mapper env (MCount model mapping) = Resolved (VNum n) ->
    applyHooks w type_post "count" (VNum n) (with_trace st2 [EvMapper (MCount model mapping)])
    = (st3, Normal n') ->
    count w env st
    = (with_trace st3 [EvSend (VObj [("count", VNum n)])], Normal tt).
Proof.
  intros mapping query0 Hinit Hkeep Hpre.
  destruct (callHooks_keeps_query w type_pre "count" _ Hkeep _ _ _ _ Hpre)
    as [Hquery Hfilter].
  change (read_prop query0 "filter") with mapping in Hfilter.
  split; [reflexivity|]. split; [done|]. split; [done|].
  intros n st3 n' Hcount Hpost.
  assert (Hn : n' = VNum n) by (by eapply callHooks_primitive; [|exact Hpost]).
  subst n'.
  unfold count. rewrite (bind_normal _ _ _ _ _ Hinit), bind_get_req.
  fold mapping. fold query0. rewrite (bind_normal _ _ _ _ _ Hpre).
  rewrite Hfilter.
  erewrite catch_normal; [done|].
  erewrite bind_normal by (by apply await_resolved).
  rewrite (bind_normal _ _ _ _ _ Hpost). by rewrite send_eq.
Qed.

(** ** callStatic *)



Lemma obj_get_absent (o : Obj) k :
  k ∉ obj_keys o -> obj_get o k = VUndefined.
Proof.
  unfold obj_keys. induction o as [| [k' v'] o IH]; intros Hk; [done|].
  cbn in *. apply not_elem_of_cons in Hk as [Hne Hk].
  destruct (String.eqb_spec k' k) as [->|_]; [done|by apply IH].
Qed.



(** ** Responses *)

Lemma sent_app (evs evs' : list Event) :
  sent (evs ++ evs') = match sent evs with Some v => Some v | None => sent evs' end.
Proof.
  induction evs as [| e evs IH]; [done|]. by destruct e; cbn.
Qed.

Lemma sent_none (evs : list Event) :
  Forall (fun e => ~ is_send e) evs -> sent evs = None.
Proof.
  induction 1 as [| e evs He _ IH]; [done|]. destruct e; cbn in *; tauto.
Qed.

Lemma quiet_with_trace st evs :
  quiet st -> Forall (fun e => ~ is_send e) evs -> quiet (with_trace st evs).
Proof.
  unfold quiet. cbn. intros Hq Hev. by rewrite sent_app, Hq, sent_none.
Qed.

Lemma quiet_answers good st : quiet st -> answers good st.
Proof. unfold quiet, answers, response. intros Hq v Hv. by rewrite Hq in Hv. Qed.

Section Triples.
Context {A B : Type}.

Lemma triple_bind (P : HState -> Prop) (m : Handler A) (Q : A -> HState -> Prop)
    (k : A -> Handler B) (R : B -> HState -> Prop) :
  triple P m Q -> (forall a, triple (Q a) (k a) R) -> triple P (m ≫= k) R.
Proof.
  intros Hm Hk st HP. specialize (Hm st HP).
  unfold mbind, Handler_bind, bind. destruct (m st) as [st' [a|e]]; [|done].
  by apply Hk.
Qed.

Lemma triple_pure (P : HState -> Prop) (phi : Prop) (m : Handler A)
    (Q : A -> HState -> Prop) :
  (phi -> triple P m Q) -> triple (fun st => P st /\ phi) m Q.
Proof. intros Hm st [HP Hphi]. by apply Hm. Qed.

Lemma triple_ret (P : HState -> Prop) (a : A) : triple P (mret a) (fun _ => P).
Proof. by intros st HP. Qed.

Lemma triple_throw (Q : A -> HState -> Prop) (e : JsVal) :
  triple quiet (throw e) Q.
Proof. by intros st HP. Qed.

Lemma triple_lift (c : Completion A) : triple quiet (lift c) (fun _ => quiet).
Proof. intros st HP. by destruct c. Qed.
End Triples.

Lemma triple_catch (good : JsVal -> Prop) (m : Handler unit) :
  triple quiet m (fun _ => answers good) ->
  triple quiet (catch m next) (fun _ => answers good).
Proof.
  intros Hm st HP. specialize (Hm st HP). unfold catch.
  destruct (m st) as [st' [a|e]]; [done|].
  rewrite next_eq. apply quiet_answers, quiet_with_trace; [done|].
  repeat constructor. tauto.
Qed.

Lemma triple_get_req (P : HState -> Prop) : triple P get_req (fun _ => P).
Proof. by intros st HP. Qed.

Lemma triple_next (good : JsVal -> Prop) (e : JsVal) :
  triple quiet (next e) (fun _ => answers good).
Proof.
  intros st HP. rewrite next_eq. apply quiet_answers, quiet_with_trace; [done|].
  repeat constructor. tauto.
Qed.

Lemma triple_send (good : JsVal -> Prop) (v : JsVal) :
  good v -> triple quiet (send v) (fun _ => answers good).
Proof.
  intros Hv st HP. rewrite send_eq. unfold answers, response. cbn.
  rewrite sent_app. unfold quiet in HP. rewrite HP. cbn. by intros ? [= <-].
Qed.

Lemma triple_emit (e : Event) :
  ~ is_send e -> triple quiet (emit e) (fun _ => quiet).
Proof.
  intros He st HP. apply (quiet_with_trace st [e]); [done|]. by repeat constructor.
Qed.

Lemma triple_await (env : Mongoose) (call : MapperCall) :
  triple quiet (await env call) (fun _ => quiet).
Proof.
  unfold await. eapply triple_bind; [apply triple_emit; tauto|].
  intros []. destruct (mapper env call); [apply triple_ret|apply triple_throw].
Qed.

Lemma triple_callHooks w type action l data :
  triple quiet (callHooks w type action l data) (fun _ => quiet).
Proof.
  intros st HP.
  destruct (callHooks_in_turn w type action l data st) as (evs & Htr & Hturn & _).
  assert (Hq : quiet (callHooks w type action l data st).1).
  { unfold quiet. rewrite Htr, sent_app. unfold quiet in HP. rewrite HP.
    apply sent_none. eapply Forall_impl.
    - by eapply invoked_in_turn_hook_events.
    - intros e. apply hook_event_not_send. }
  by destruct (callHooks w type action l data st) as [st' [a|e]].
Qed.

Lemma triple_applyHooks w type action data :
  triple quiet (applyHooks w type action data) (fun _ => quiet).
Proof. apply triple_callHooks. Qed.

Lemma triple_initModel w : triple quiet (initModel w) (fun _ => quiet).
Proof.
  unfold initModel. eapply triple_bind; [apply triple_applyHooks|].
  intros params. apply triple_applyHooks.
Qed.

Lemma triple_findById env id model :
  triple quiet (findById env id model) (fun _ => quiet).
Proof.
  unfold findById. eapply triple_bind; [apply triple_await|].
  intros doc. destruct (negb (truthy doc)); [apply triple_throw|apply triple_ret].
Qed.

Lemma triple_write_shared_filter filter :
  triple quiet (write_shared_filter filter) (fun _ => quiet).
Proof.
  intros st HP. unfold write_shared_filter. by destruct (instanceof_Object _).
Qed.

Create HintDb triples discriminated.
#[local] Hint Resolve triple_get_req triple_next triple_await triple_applyHooks
  triple_initModel triple_findById triple_throw triple_ret triple_lift
  triple_write_shared_filter : triples.

(** A bind whose first computation is a case analysis that sends nothing. *)
Ltac triple_cases :=
  eapply triple_bind;
    [repeat match goal with
            | |- triple _ (match ?d with _ => _ end) _ => destruct d
            | |- triple _ (if ?c then _ else _) _ => destruct c
            end; eauto with triples
    | intros ?].

(** One step through a bind whose first computation sends nothing. *)
Ltac triple_step :=
  eapply triple_bind; [solve [eauto with triples] | intros ?].

(** ** Hidden fields *)

Lemma obj_get_replace_same (o : Obj) k v :
  k ∈ obj_keys o -> obj_get (obj_replace o k v) k = v.
Proof.
  unfold obj_keys. induction o as [| [k' v'] o IH]; cbn; intros Hin.
  - by apply elem_of_nil in Hin.
  - destruct (String.eqb_spec k' k) as [->|Hne]; cbn.
    + by rewrite String.eqb_refl.
    + destruct (String.eqb_spec k' k); [done|].
      apply elem_of_cons in Hin as [->|Hin]; [done|by apply IH].
Qed.

Lemma obj_get_replace_other (o : Obj) k k' v :
  k <> k' -> obj_get (obj_replace o k v) k' = obj_get o k'.
Proof.
  intros Hne. induction o as [| [k0 v0] o IH]; cbn; [done|].
  destruct (String.eqb_spec k0 k) as [->|Hk0]; cbn.
  - by destruct (String.eqb_spec k k').
  - by destruct (String.eqb_spec k0 k').
Qed.

Lemma obj_get_insert_same (o : Obj) k v :
  k ∉ obj_keys o -> obj_get (obj_insert o k v) k = v.
Proof.
  unfold obj_keys. induction o as [| [k' v'] o IH]; cbn; intros Hin.
  - by rewrite String.eqb_refl.
  - apply not_elem_of_cons in Hin as [Hne Hin].
    destruct (enumerated_before k k'); cbn.
    + by rewrite String.eqb_refl.
    + destruct (String.eqb_spec k' k); [done|by apply IH].
Qed.

Lemma obj_get_insert_other (o : Obj) k k' v :
  k <> k' -> obj_get (obj_insert o k v) k' = obj_get o k'.
Proof.
  intros Hne. induction o as [| [k0 v0] o IH]; cbn.
  - by destruct (String.eqb_spec k k').
  - destruct (enumerated_before k k0); cbn.
    + by destruct (String.eqb_spec k k').
    + by destruct (String.eqb_spec k0 k').
Qed.

Lemma obj_get_set_same (o : Obj) k v : obj_get (obj_set o k v) k = v.
Proof.
  unfold obj_set. case_bool_decide.
  - by apply obj_get_replace_same.
  - by apply obj_get_insert_same.
Qed.

Lemma obj_get_set_other (o : Obj) k k' v :
  k <> k' -> obj_get (obj_set o k v) k' = obj_get o k'.
Proof.
  intros Hne. unfold obj_set. case_bool_decide.
  - by apply obj_get_replace_other.
  - by apply obj_get_insert_other.
Qed.

(** A write that the object takes as a property of its own reads back; the
    write under [__proto__] that it does not take leaves nothing to read. *)
Lemma obj_get_put_same (o : Obj) k v :
  obj_get (obj_put o k v) k
  = if bool_decide (k = "__proto__" /\ k ∉ obj_keys o) then VUndefined else v.
Proof.
  unfold obj_put. case_bool_decide as Hk.
  - apply obj_get_absent. by destruct Hk.
  - apply obj_get_set_same.
Qed.

Lemma obj_get_put_other (o : Obj) k k' v :
  k <> k' -> obj_get (obj_put o k v) k' = obj_get o k'.
Proof.
  intros Hne. unfold obj_put. case_bool_decide; [done|].
  by apply obj_get_set_other.
Qed.

Lemma obj_put_undefined_keeps (o : Obj) k f :
  obj_get o f = VUndefined -> obj_get (obj_put o k VUndefined) f = VUndefined.
Proof.
  intros Hf. destruct (decide (k = f)) as [->|Hne].
  - rewrite obj_get_put_same. by case_bool_decide.
  - by rewrite obj_get_put_other.
Qed.

(** [removeHidden] on an object: every field of the list reads as
    [undefined] afterwards. *)
Lemma clear_fields_object (fields : list string) : forall (o : Obj),
  exists o',
    forEach_acc (fun doc field => set_prop doc field VUndefined) fields (VObj o)
    = Normal (VObj o') /\
    (forall f, f ∈ fields -> obj_get o' f = VUndefined) /\
    (forall f, obj_get o f = VUndefined -> obj_get o' f = VUndefined).
Proof.
  induction fields as [| field fields IH]; intros o.
  - exists o. split; [done|]. split; [|done]. intros f Hf. by apply elem_of_nil in Hf.
  - destruct (IH (obj_put o field VUndefined)) as (o' & Hrun & Hin & Hkeep).
    exists o'. split; [exact Hrun|]. split.
    + intros f Hf. apply elem_of_cons in Hf as [->|Hf]; [|by apply Hin].
      apply Hkeep. rewrite obj_get_put_same. by case_bool_decide.
    + intros f Hf. by apply Hkeep, obj_put_undefined_keeps.
Qed.

Lemma clear_fields_array (fields : list string) : forall (l : list JsVal),
  exists l',
    forEach_acc (fun doc field => set_prop doc field VUndefined) fields (VArr l)
    = Normal (VArr l').
Proof.
  induction fields as [| field fields IH]; intros l.
  - by exists l.
  - cbn. destruct (array_index (length l) field); cbn; apply IH.
Qed.

Lemma removeHidden_cleared w doc doc' :
  removeHidden w doc = Normal doc' ->
  cleared (hidden w) doc' /\ by_reference doc doc' = doc'.
Proof.
  unfold removeHidden. intros Hrun. destruct doc.
  6: { destruct (clear_fields_array (hidden w) elems) as (l' & Hl').
       rewrite Hl' in Hrun. by inversion Hrun. }
  6: { destruct (clear_fields_object (hidden w) props) as (o' & Ho' & Hin & _).
       rewrite Ho' in Hrun. by inversion Hrun. }
  all: destruct (hidden w); cbn in Hrun; [|done]; by inversion Hrun.
Qed.

Lemma removeHidden_each w docs : forall docs',
  forEach_elem (removeHidden w) docs = Normal docs' ->
  Forall (cleared (hidden w)) docs'.
Proof.
  induction docs as [| doc docs IH]; intros docs' Hrun; cbn in Hrun.
  - by inversion Hrun.
  - destruct (removeHidden w doc) as [doc1|e] eqn:Hdoc; [|done]. cbn in Hrun.
    destruct (forEach_elem (removeHidden w) docs) as [docs1|e]; [|done].
    cbn in Hrun. inversion Hrun; subst. constructor; [|by apply IH].
    by apply removeHidden_cleared in Hdoc as [? _].
Qed.

Lemma cleared_nil doc : cleared [] doc.
Proof. destruct doc; cbn; try done. intros f Hf. by apply elem_of_nil in Hf. Qed.

Lemma hidden_cleared_nil v : hidden_cleared [] v.
Proof.
  destruct v; try apply cleared_nil. cbn.
  apply Forall_forall. intros ? _. apply cleared_nil.
Qed.

(** What the hook of [setupModel] leaves, when it returns. *)
Lemma hiddenHook_cleared w data data' :
  hiddenHook w data = Normal data' ->
  hidden_cleared (hidden w) data' /\ by_reference data data' = data'.
Proof.
  unfold hiddenHook. intros Hrun.
  destruct (truthy data && _) eqn:Hcond.
  - destruct data as [| | b | n | s | elems | props].
    6: { destruct (forEach_elem (removeHidden w) elems) as [docs'|e] eqn:Hdocs; [|done].
         cbn in Hrun. inversion Hrun; subst. split; [|done].
         by apply removeHidden_each in Hdocs. }
    all: apply removeHidden_cleared in Hrun as [Hc Hr]; split; [|done];
      by destruct data'.
  - inversion Hrun; subst. split; [|apply by_reference_same].
    apply andb_false_iff in Hcond as [Hfalsy|Hempty].
    + by destruct data'.
    + destruct (hidden w); [apply hidden_cleared_nil|done].
Qed.

Lemma callHooks_app w type action l1 l2 : forall data st,
  callHooks w type action (l1 ++ l2) data st
  = (callHooks w type action l1 data ≫= callHooks w type action l2) st.
Proof.
  induction l1 as [| hook l1 IH]; intros data st; [done|].
  cbn [app callHooks]. unfold mbind, Handler_bind, bind in *.
  destruct (callHook w type action hook data st) as [st' [data'|e]]; [|done].
  apply IH.
Qed.

(** A list of hooks that ends with the hook of [setupModel] leaves the
    hidden fields cleared. *)
Lemma triple_callHooks_hidden w type action l data :
  triple quiet (callHooks w type action (l ++ [HiddenHook]) data)
         (fun data' st => quiet st /\ hidden_cleared (hidden w) data').
Proof.
  intros st HP. rewrite callHooks_app.
  pose proof (triple_callHooks w type action l data st HP) as Hl.
  unfold mbind, Handler_bind, bind.
  destruct (callHooks w type action l data st) as [st1 [data1|e]]; [|done].
  cbn [callHooks].
  destruct (invoke w HiddenHook (hs_req st1) (hs_res st1) data1)
    as [req2 res2 data2|e] eqn:Hinv.
  - rewrite (bind_normal _ _ _ _ _ (callHook_returns w type action _ data1 st1 _ _ _ Hinv)).
    cbn in Hinv. destruct (hiddenHook w data1) as [d|e] eqn:Hh; [|done].
    inversion Hinv; subst. apply hiddenHook_cleared in Hh as [Hc ->].
    split; [|done]. unfold quiet in *. cbn. rewrite sent_app, Hl. done.
  - rewrite (bind_throw _ _ _ _ _ (callHook_throws w type action _ data1 st1 _ Hinv)).
    unfold quiet in *. cbn. rewrite sent_app, Hl. done.
Qed.

(** [addHook] touches the hook tables only. *)
Lemma addHook_hidden action w type callback :
  hidden (addHook w type action callback).1 = hidden w.
Proof. rewrite addHook_on_table. by destruct type. Qed.

Lemma document_actions_plain : plain_names document_actions.
Proof. repeat constructor; not_in_list. Qed.

(** The registration [setupModel] makes returns, so the routes are set up
    on the wrapper it leaves. *)
Lemma setupModel_unfold w env :
  setupModel w env
  = ((addHook w type_post document_actions HiddenHook).1,
     setupModelRoutes (addHook w type_post document_actions HiddenHook).1 env).
Proof.
  unfold setupModel. fold document_actions.
  pose proof (addHook_returns document_actions w type_post HiddenHook
                document_actions_plain) as Hret.
  destruct (addHook w type_post document_actions HiddenHook) as [w' c].
  cbn [snd] in Hret. by subst c.
Qed.

Lemma setupModel_hidden w env : hidden (setupModel w env).1 = hidden w.
Proof. rewrite setupModel_unfold. apply addHook_hidden. Qed.

Lemma action_name_plain (a : DocumentAction) : action_name a ∉ Object_prototype.
Proof. destruct a; not_in_list. Qed.

(** After [setupModel], the hook that clears the hidden fields is the last
    of the post hooks of a document action, unless a catch-all post hook
    follows it. *)
Lemma hooksToApply_setupModel w env (a : DocumentAction) :
  bucket w type_post "all" = [] ->
  hooksToApply (setupModel w env).1 type_post (action_name a)
  = bucket w type_post (action_name a) ++ [HiddenHook].
Proof.
  intros Hall. rewrite hooksToApply_buckets by apply action_name_plain.
  rewrite setupModel_unfold. cbn [fst].
  rewrite !bucket_addHook by apply document_actions_plain. rewrite Hall.
  destruct a; cbn [action_name];
    (set (r1 := registers _ _ _); set (r2 := registers _ _ "all");
     vm_compute in r1, r2; subst r1 r2; by rewrite app_nil_r).
Qed.


Section DocumentHandlers.
Context `{JsBuiltins}.
Variable w0 : ModelWrapper.
Variable env : Mongoose.
Hypothesis no_catch_all : bucket w0 type_post "all" = [].

Let w := (setupModel w0 env).1.
Let good := hidden_cleared (hidden w).

Lemma triple_post_hooks (a : DocumentAction) (data : JsVal) :
  triple quiet (applyHooks w type_post (action_name a) data)
         (fun data' st => quiet st /\ good data').
Proof.
  unfold applyHooks, w. rewrite hooksToApply_setupModel by done.
  apply triple_callHooks_hidden.
Qed.

Lemma triple_respond (a : DocumentAction) (data : JsVal) :
  triple quiet (doc ← applyHooks w type_post (action_name a) data; send doc)
         (fun _ => answers good).
Proof.
  eapply triple_bind; [apply triple_post_hooks|].
  intros doc. apply triple_pure. intros Hdoc. by apply triple_send.
Qed.

Lemma triple_create : triple quiet (create w env) (fun _ => answers good).
Proof.
  unfold create. triple_step.
  destruct (_ || _); [apply triple_next|].
  do 3 triple_step. apply triple_catch. triple_step.
  apply (triple_respond DoCreate).
Qed.

Lemma triple_findOne : triple quiet (findOne w env) (fun _ => answers good).
Proof.
  unfold findOne. do 6 triple_step. apply triple_catch. triple_step.
  triple_cases. apply (triple_respond DoFindOne).
Qed.

Lemma triple_find : triple quiet (find w env) (fun _ => answers good).
Proof.
  unfold find. do 3 triple_step. apply triple_catch. triple_step.
  apply (triple_respond DoFind).
Qed.

Lemma triple_update : triple quiet (update w env) (fun _ => answers good).
Proof.
  unfold update. do 2 triple_step. apply triple_catch. do 3 triple_step.
  triple_cases. apply (triple_respond DoUpdate).
Qed.

Lemma triple_delete : triple quiet (delete w env) (fun _ => answers good).
Proof.
  unfold delete. do 2 triple_step. apply triple_catch. do 2 triple_step.
  triple_cases. apply (triple_respond DoDelete).
Qed.

Lemma triple_document_handler (a : DocumentAction) :
  triple quiet (document_handler w env a) (fun _ => answers good).
Proof.
  destruct a; [apply triple_create | apply triple_find | apply triple_findOne
              | apply triple_update | apply triple_delete].
Qed.
End DocumentHandlers.


(** What a handler run on a request has sent satisfies the postcondition of
    its triple, whether it returned or threw. *)
Lemma triple_run (good : JsVal -> Prop) (h : Handler unit) req res v :
  triple quiet h (fun _ => answers good) ->
  response (run h req res).1 = Some v -> good v.
Proof.
  intros Hh Hv. unfold run in Hv.
  specialize (Hh {| hs_req := req; hs_res := res; hs_trace := [] |} eq_refl).
  destruct (h _) as [st' [[]|e]]; cbn in Hv.
  - by apply Hh.
  - unfold quiet in Hh. unfold response in Hv. by rewrite Hh in Hv.
Qed.

(** *** count and the hidden-field list *)






(** ** The properties on the models of the test suite *)

(** On an empty collection, [update] and [delete] of id 1 forward the error
    of [findById]. *)
Lemma update_delete_not_found_on_empty :
  let st := request (VObj [("name", VStr "newName")]) [] [("id", VStr "1")] in
  let lookup := MFindOne (model (new_ModelWrapper "Test") (VObj []))
                         (VObj [("_id", VStr "1")]) VUndefined None in
  update (new_ModelWrapper "Test") Test st
  = (with_trace st [EvMapper lookup; EvNext ModelNotFound], Normal tt) /\
  delete (new_ModelWrapper "Test") Test st
  = (with_trace st [EvMapper lookup; EvNext ModelNotFound], Normal tt).
Proof.
  intros st lookup.
  pose proof (update_delete_not_found (new_ModelWrapper "Test") Test st st
                (model (new_ModelWrapper "Test") (VObj []))
                (initModel_new "Test" st) eq_refl) as Hnf.
  split; [exact (proj1 Hnf) | exact (proj1 (proj2 Hnf))].
Defined.

(** The error [update] forwards on a miss is not the one [findOne] forwards:
    the message differs, and the status is under [status], not under
    [statusCode]. *)
Lemma update_miss_differs_from_findOne_miss :
  let st := request (VObj []) [] [("id", VStr "1")] in
  hs_trace (update (new_ModelWrapper "Test") Test st).1
  = [EvMapper (MFindOne (model (new_ModelWrapper "Test") (VObj []))
                        (VObj [("_id", VStr "1")]) VUndefined None);
     EvNext ModelNotFound] /\
  hs_trace (@findOne no_text (new_ModelWrapper "Test") Test st).1
  = [EvMapper (MFindOne (model (new_ModelWrapper "Test") (VObj []))
                        (VObj [("_id", VStr "1")]) VNull None);
     EvNext NotFoundError] /\
  ModelNotFound <> NotFoundError /\
  read_prop ModelNotFound "message" = VStr "Not Found" /\
  read_prop NotFoundError "message" = VStr "Document Not Found" /\
  read_prop ModelNotFound "statusCode" = VUndefined /\
  read_prop NotFoundError "statusCode" = VNum 404%float.
Proof.
  cbn zeta. split; [by vm_compute|]. split; [by vm_compute|]. by repeat split.
Qed.

(** [GET /tests/1]: on an empty collection the [NotFoundError] is forwarded;
    when the document is there, a post hook of [findOne] runs on it and the
    document is sent as the hook left it. *)
Lemma findOne_on_the_test_models :
  let st := request (VObj []) [] [("id", VStr "1")] in
  let w := new_ModelWrapper "Test" in
  let w' := (post w (Action "findOne") addContent).1 in
  let lookup := MFindOne (model w (VObj [])) (VObj [("_id", VStr "1")]) VNull None in
  let doc := VObj [("name", VStr "someName"); ("_id", VNum 1%float)] in
  let doc' := VObj [("name", VStr "someName"); ("_id", VNum 1%float);
                    ("content", VStr "from post hook")] in
  @findOne no_text w Test st
  = (with_trace st [EvMapper lookup; EvNext NotFoundError], Normal tt) /\
  @findOne no_text w' Test_with_document st
  = (with_trace st [EvMapper lookup;
                    EvHook type_post "findOne" addContent
                           (hs_req st) (hs_res st) doc;
                    EvSend doc'], Normal tt).
Proof.
  intros st w w' lookup doc doc'.
  set (query1 := VObj [("filter", VObj [("_id", VStr "1")]);
                       ("populate", VUndefined);
                       ("options", VObj []);
                       ("projection", VNull)]).
  assert (Hunshared : unshared (query (hs_req st))) by (by repeat constructor).
  pose proof (@findOne_null_or_document no_text w Test
                st st st (model w (VObj [])) (VObj [("_id", VStr "1")])
                query1 query1
                (initModel_new "Test" st) eq_refl eq_refl (or_introl Hunshared)
                (applyHooks_new "Test" _ "findOne" _ st (plain_name "findOne" I))) as Hnull.
  assert (Hinit : initModel w' st = (st, Normal (model w (VObj [])))) by reflexivity.
  assert (Hpre : applyHooks w' type_pre "findOne" query1 st = (st, Normal query1))
    by reflexivity.
  pose proof (@findOne_null_or_document no_text w' Test_with_document
                st st st (model w (VObj [])) (VObj [("_id", VStr "1")])
                query1 query1 Hinit eq_refl eq_refl (or_introl Hunshared) Hpre) as Hdoc.
  split.
  - exact (proj1 (proj1 Hnull eq_refl)).
  - refine (proj1 (proj1 (proj2 Hdoc) doc
                     (with_trace st [EvMapper lookup;
                                     EvHook type_post "findOne" addContent
                                            (hs_req st) (hs_res st) doc])
                     doc' eq_refl eq_refl _)).
    reflexivity.
Defined.

(** [GET /tests/1?filter[name]=someName], the filter parameter an object, with
    a pre hook of [findOne] that throws: the request the hook is called with
    has the [_id] the handler wrote into the filter. *)
Example findOne_hook_gets_the_written_filter :
  let filter := VObj [("name", VStr "someName"); ("_id", VStr "1")] in
  let st := request (VObj []) [("filter", VObj [("name", VStr "someName")])]
                    [("id", VStr "1")] in
  let w := (pre (new_ModelWrapper "Test") (Action "findOne") restrictDelete).1 in
  let req' := {| body := VObj []; query := [("filter", filter)];
                 params := [("id", VStr "1")] |} in
  let query1 := VObj [("filter", filter); ("populate", VUndefined);
                      ("options", VObj []); ("projection", VNull)] in
  @findOne no_text w Test st
  = ({| hs_req := req'; hs_res := VObj [];
        hs_trace := [EvHook type_pre "findOne" restrictDelete req' (VObj []) query1] |},
     Throw (Error "Oops!")).
Proof. reflexivity. Qed.

(** [GET /tests/count?_id=2], with a pre hook of [count] that writes into
    the body of the request: the filter of the mapper's count is the query
    mapping [{_id: "2"}]. *)
Lemma count_filters_by_id :
  let w := (pre (new_ModelWrapper "Test") (Action "count") addBodyContent).1 in
  let st := request (VObj []) [("_id", VStr "2")] [] in
  let call := MCount (model w (VObj [])) (VObj [("_id", VStr "2")]) in
  let query0 := VObj [("filter", VObj [("_id", VStr "2")]);
                      ("populate", VUndefined);
                      ("options", VObj []);
                      ("projection", VNull)] in
  hs_trace (@count no_text w Test st).1
  = [EvHook type_pre "count" addBodyContent (hs_req st) (hs_res st) query0;
     EvMapper call;
     EvSend (VObj [("count", VNum 0%float)])].
Proof.
  intros w st call query0.
  set (st2 := {| hs_req := {| body := VObj [("content", VStr "from pre create hook")];
                              query := [("_id", VStr "2")]; params := [] |};
                 hs_res := hs_res st;
                 hs_trace := [EvHook type_pre "count" addBodyContent
                                     (hs_req st) (hs_res st) query0] |}).
  assert (Hinit : initModel w st = (st, Normal (model w (VObj [])))) by reflexivity.
  assert (Hkeep : Forall (keeps_query w) (hooksToApply w type_pre "count")).
  { change (hooksToApply w type_pre "count") with [addBodyContent].
    apply Forall_singleton. intros req res data req' res' data' Hinv.
    unfold invoke, addBodyContent in Hinv.
    destruct (set_prop (body req) _ _); inversion Hinv; subst.
    by rewrite by_reference_same. }
  assert (Hpre : applyHooks w type_pre "count" query0 st = (st2, Normal query0))
    by reflexivity.
  pose proof (@count_filters_by_whole_query no_text w Test st st st2
                (model w (VObj [])) query0 Hinit Hkeep Hpre) as Hcount.
  assert (Hpost : applyHooks w type_post "count" (VNum 0%float) (with_trace st2 [EvMapper call])
                  = (with_trace st2 [EvMapper call], Normal (VNum 0%float)))
    by reflexivity.
  by rewrite (proj2 (proj2 (proj2 Hcount)) 0%float _ _ eq_refl Hpost).
Defined.


(** [static('exposedStaticMethod')] on a new wrapper fills the list of
    instance methods and leaves the statics empty. *)
Lemma static_exposedStaticMethod :
  exists w',
    static (new_ModelWrapper "Test") Test (MethodName "exposedStaticMethod")
    = Normal w' /\
    getMethods w' = [{| exposeName := "exposedStaticMethod";
                        name := "exposedStaticMethod" |}] /\
    getStatics w' = [].
Proof.
  destruct (static_registers_a_method (new_ModelWrapper "Test") Test
              (MethodName "exposedStaticMethod") eq_refl)
    as (w' & Hw' & _ & Hmethods & Hstatics & _).
  exists w'. split; [exact Hw'|]. split; [exact Hmethods | exact Hstatics].
Defined.





(** Hooks registered for [(post, find)] and then for [(post, all)] both run
    on a [find] response, the hook of the action first. *)
Example hooks_of_find_before_catch_all (h1 h2 : Callback) :
  hooksToApply (post (post (new_ModelWrapper "Post") (Action "find") h1).1
                     (Action "all") h2).1
               type_post "find"
  = [h1; h2].
Proof.
  unfold post.
  rewrite hooksToApply_buckets by not_in_list.
  rewrite !bucket_addHook by (repeat constructor; not_in_list).
  rewrite !bucket_new. reflexivity.
Qed.

(** [exposeStatic('toString')] does not throw, although the schema of [Test]
    has no static of that name: the read of the statics finds the [toString]
    every plain object inherits, and the method gets a route. *)
Lemma exposeStatic_accepts_the_inherited_toString :
  let d := {| exposeName := "toString"; name := "toString" |} in
  schema_statics Test !! "toString" = None /\
  exposeStatic (new_ModelWrapper "Test") Test (MethodName "toString")
  = Normal (set_statics (new_ModelWrapper "Test") [d]) /\
  head (setupModelRoutes (set_statics (new_ModelWrapper "Test") [d]) Test)
  = Some {| route_verb := POST; route_path := "/tests/toString";
            route_middleware := None;
            route_handler := RunCallStatic "toString" |}.
Proof. cbn zeta. split; [reflexivity|]. split; reflexivity. Qed.

(** Exposing a static method that the model does not have throws; exposing
    the same [exposeName] twice keeps one descriptor, the later one. *)
Example exposeStatic_of_the_tests :
  (exists e, exposeStatic (new_ModelWrapper "Test") Test
               (MethodName "wrongStaticMethod") = Throw e) /\
  exists w1 w2,
    exposeStatic (new_ModelWrapper "Test") Test
      (MethodName "exposedStaticMethod") = Normal w1 /\
    exposeStatic w1 Test
      (MethodObject "exposedStaticMethod2" (Some "exposedStaticMethod")) = Normal w2 /\
    getStatics w2 = [{| exposeName := "exposedStaticMethod";
                        name := "exposedStaticMethod2" |}].
Proof.
  split; [by eexists|]. by do 2 eexists.
Qed.

(** * Further properties *)

(** ** Middleware registry *)

Lemma lookup_set_all {V} (keys : list string) (v : V) : forall m k,
  set_all keys v m !! k = if decide (k ∈ keys) then Some v else m !! k.
Proof.
  induction keys as [| a keys IH]; intros m k; cbn.
  - rewrite decide_False; [done|]. apply not_elem_of_nil.
  - unfold set_all in IH. rewrite IH.
    destruct (decide (k ∈ keys)) as [Hin|Hnin].
    + rewrite decide_True; [done|]. by apply elem_of_cons; right.
    + destruct (decide (a = k)) as [->|Hne].
      * rewrite lookup_insert_eq, decide_True; [done|]. by apply elem_of_cons; left.
      * rewrite lookup_insert_ne by done. rewrite decide_False; [done|].
        intros [->|?]%elem_of_cons; done.
Qed.

Lemma set_middlewares_same w : set_middlewares w (middlewares w) = w.
Proof. by destruct w. Qed.

Lemma set_middlewares_twice w t t' :
  set_middlewares (set_middlewares w t) t' = set_middlewares w t'.
Proof. done. Qed.

(** [setMiddleware] sets the callback under every action name its argument
    stands for, one after the other, and touches nothing else. *)
Lemma setMiddleware_table action : forall w callback,
  setMiddleware w action callback
  = set_middlewares w
      (foldl (fun t a => middleware_set t a callback) (middlewares w)
             (action_names action)).
Proof.
  induction action as [a | l IH] using ActionArg_nested_ind; intros w callback.
  - reflexivity.
  - cbn [setMiddleware action_names]. revert w.
    induction IH as [| x l Hx _ IHl]; intros w; cbn [foldl flat_map].
    + by rewrite set_middlewares_same.
    + rewrite IHl, Hx, foldl_app. by rewrite set_middlewares_twice.
Qed.

(** Names other than [__proto__] become properties of the table's own. *)
Lemma middleware_set_names (names : list string) (callback : Middleware) :
  "__proto__" ∉ names -> forall t,
  foldl (fun t a => middleware_set t a callback) t names
  = {| mw_own := set_all names callback (mw_own t); mw_proto := mw_proto t |}.
Proof.
  induction names as [| a names IH]; intros Hnames t; cbn [foldl].
  - by destruct t.
  - apply not_elem_of_cons in Hnames as [Ha Hnames]. rewrite IH by done.
    unfold middleware_set.
    destruct (String.eqb_spec a "__proto__") as [->|_]; [done|]. done.
Qed.

(** X1.  The middleware of an action after [setMiddleware(action, callback)],
    [action] being a name or an array of names other than [__proto__], on a
    table whose prototype is [Object.prototype]: the callback for every action
    named, so the last registration wins; for another action, what the table
    has for it, of its own or inherited, else the callback if ["all"] was
    named; and what [getMiddleware] gave before if ["all"] was not named. *)
Theorem getMiddleware_setMiddleware
    (w : ModelWrapper) (action : ActionArg) (callback : Middleware) (a : string) :
  mw_proto (middlewares w) = None ->
  "__proto__" ∉ action_names action ->
  getMiddleware (setMiddleware w action callback) a
  = if decide (a ∈ action_names action) then Callable callback
    else if decide ("all" ∈ action_names action)
         then middleware_or (middlewares w) a (Callable callback)
         else getMiddleware w a.
Proof.
  intros Hproto Hnames.
  rewrite setMiddleware_table, middleware_set_names by done.
  unfold getMiddleware, middleware_or.
  cbn [middlewares set_middlewares mw_own mw_proto]. rewrite Hproto.
  rewrite !lookup_set_all.
  destruct (String.eqb_spec a "__proto__") as [->|Ha].
  - rewrite decide_False by done. by case_decide.
  - destruct (decide (a ∈ action_names action)); [done|].
    destruct (decide ("all" ∈ action_names action)); [|done].
    cbn [String.eqb Ascii.eqb Bool.eqb]. done.
Qed.

(** X2.  No route uses the middleware registered for ["findOne"]: the route
    of [findOne] ([GET /<collection>/:id]) is gated by the middleware of
    ["find"], and setting a middleware for ["findOne"] leaves the route table
    as it was. *)
Theorem findOne_route_uses_find_middleware
    (w : ModelWrapper) (env : Mongoose) (callback : Middleware) :
  setupModelRoutes (setMiddleware w (Action "findOne") callback) env
  = setupModelRoutes w env /\
  forall r, r ∈ setupModelRoutes w env -> route_handler r = RunFindOne ->
    route_verb r = GET /\
    route_path r = "/" +:+ collectionName env +:+ "/:id" /\
    route_middleware r = Some (getMiddleware w "find").
Proof.
  split.
  - unfold setupModelRoutes, middleware.
    assert (Hsame : forall a, a <> "findOne" -> a <> "all" ->
              getMiddleware (setMiddleware w (Action "findOne") callback) a
              = getMiddleware w a).
    { intros a Ha Hall. unfold getMiddleware, middleware_or. cbn.
      by rewrite !lookup_insert_ne. }
    by rewrite !Hsame.
  - intros r Hr Hh. unfold setupModelRoutes in Hr.
    apply elem_of_app in Hr as [Hr|Hr].
    + apply list_elem_of_fmap in Hr as (d & -> & _). done.
    + repeat (apply elem_of_cons in Hr as [->|Hr]; [by cbn in Hh|]).
      by apply elem_of_nil in Hr.
Qed.

(** ** Configuration calls *)

(** [addHook] changes the hook table of its type only, whether it returns
    or throws. *)
Lemma addHook_frame action w type callback :
  let w' := (addHook w type action callback).1 in
  modelName w' = modelName w /\ middlewares w' = middlewares w /\
  methods w' = methods w /\ statics w' = statics w /\ hidden w' = hidden w /\
  forall type', type' <> type -> hooks w' type' = hooks w type'.
Proof.
  cbn zeta. rewrite addHook_on_table. cbn [fst]. repeat split.
  intros type' Hne. rewrite hooks_set_hooks. by rewrite decide_False.
Qed.

(** X3.  The configuration calls of a wrapper are independent: [pre] and
    [post] change the hook table of their type only, [middleware] the
    middleware table only, [hide] the hidden-field list only, [exposeMethod]
    the methods list only and [exposeStatic] the statics list only. *)
Theorem configuration_calls_are_independent
    (w : ModelWrapper) (env : Mongoose) (action : ActionArg)
    (callback : Callback) (mw : Middleware) (fields : FieldsArg) (m : MethodArg) :
  (hooks (pre w action callback).1 type_post = hooks w type_post /\
   hooks (post w action callback).1 type_pre = hooks w type_pre /\
   forall w', w' = (pre w action callback).1 \/ w' = (post w action callback).1 ->
     modelName w' = modelName w /\ middlewares w' = middlewares w /\
     methods w' = methods w /\ statics w' = statics w /\ hidden w' = hidden w) /\
  setMiddleware w action mw
  = set_middlewares w (middlewares (setMiddleware w action mw)) /\
  hide w fields = set_hidden w (hidden (hide w fields)) /\
  (forall w', exposeMethod w env m = Normal w' -> w' = set_methods w (methods w')) /\
  (forall w', exposeStatic w env m = Normal w' -> w' = set_statics w (statics w')).
Proof.
  split; [|split; [|split; [|split]]].
  - split; [|split].
    + by apply (addHook_frame action w type_pre callback).
    + by apply (addHook_frame action w type_post callback).
    + intros w' [-> | ->]; unfold pre, post;
        destruct (addHook_frame action w type_pre callback) as (? & ? & ? & ? & ? & _);
        destruct (addHook_frame action w type_post callback) as (? & ? & ? & ? & ? & _);
        done.
  - by rewrite setMiddleware_table.
  - reflexivity.
  - intros w' Hw'. unfold exposeMethod in Hw'.
    destruct (instanceof_Function _); by inversion Hw'.
  - intros w' Hw'. unfold exposeStatic in Hw'.
    destruct (slot_instanceof_Function _); [|done].
    destruct (list_find _ _) as [[? ?]|]; by inversion Hw'.
Qed.

(** ** The registry *)

Lemma getModelWrapper_Some r name w :
  getModelWrapper r name = Some w -> w ∈ models r /\ modelName w = name.
Proof.
  unfold getModelWrapper. intros Hw.
  apply fmap_Some in Hw as ([i w'] & Hfind & ->).
  apply list_find_Some in Hfind as (Hi & Hn & _).
  split; [by eapply list_elem_of_lookup_2|done].
Qed.

Lemma getModelWrapper_None r name :
  getModelWrapper r name = None <-> name ∉ modelName <$> models r.
Proof.
  unfold getModelWrapper. rewrite fmap_None, list_find_None, Forall_forall.
  split.
  - intros Hno (w & -> & Hw)%list_elem_of_fmap. by apply (Hno w).
  - intros Hno w Hw Hn. apply Hno, list_elem_of_fmap. by exists w.
Qed.

(** X4.  [addModel] throws exactly when a wrapper of that name is
    registered.  Otherwise it returns a new wrapper, registered after the
    others: looking the name up gives that wrapper, and the other names are
    looked up as before. *)
Theorem addModel_registers_once (r : Restaman) (model : string) :
  ((exists e, addModel r model = Throw e) <-> model ∈ modelName <$> models r) /\
  forall r' w, addModel r model = Normal (r', w) ->
    w = new_ModelWrapper model /\
    models r' = models r ++ [w] /\
    getModelWrapper r' model = Some w /\
    forall other, other <> model ->
      getModelWrapper r' other = getModelWrapper r other.
Proof.
  unfold addModel. cbn [modelName new_ModelWrapper].
  destruct (getModelWrapper r model) as [w0|] eqn:Hget.
  - split; [|done]. split; [|by eauto].
    intros _. apply getModelWrapper_Some in Hget as [Hw0 <-].
    apply list_elem_of_fmap. by exists w0.
  - split.
    + split; [by intros [e He]|].
      intros Hin. by apply getModelWrapper_None in Hget.
    + intros r' w [= <- <-]. split; [done|]. split; [done|].
      unfold getModelWrapper in *. cbn [models].
      apply fmap_None in Hget. split.
      * rewrite list_find_app_r by done. cbn. by rewrite decide_True.
      * intros other Hne.
        destruct (list_find (fun mw => modelName mw = other) (models r))
          as [[i w1]|] eqn:Hother.
        -- by erewrite list_find_app_l.
        -- rewrite list_find_app_r by done. cbn. by rewrite decide_False.
Qed.

Lemma removeModel_sublist r name : models (removeModel r name) `sublist_of` models r.
Proof.
  unfold removeModel. destruct (list_find _ _) as [[i w]|]; [|done].
  apply sublist_delete.
Qed.

(** X5.  Whatever models are added and removed, starting from a new
    registry, no two registered wrappers have the same model name. *)
Theorem registry_names_unique (calls : list RegistryCall) :
  NoDup (modelName <$> models (foldl registry_call new_Restaman calls)).
Proof.
  assert (Hstep : forall r c, NoDup (modelName <$> models r) ->
                              NoDup (modelName <$> models (registry_call r c))).
  { intros r [model|name] Hnd; cbn.
    - unfold addModel. cbn [modelName new_ModelWrapper].
      destruct (getModelWrapper r model) eqn:Hget; [done|]. cbn.
      rewrite fmap_app. apply NoDup_app. split; [done|].
      split; [|apply NoDup_singleton].
      intros x Hx ->%list_elem_of_singleton.
      by apply getModelWrapper_None in Hget.
    - eapply sublist_NoDup; [exact Hnd|].
      apply fmap_sublist, removeModel_sublist. }
  assert (Hall : forall r, NoDup (modelName <$> models r) ->
                           NoDup (modelName <$> models (foldl registry_call r calls))).
  { induction calls as [| c calls IH]; intros r Hnd; [done|].
    cbn. by apply IH, Hstep. }
  apply Hall. constructor.
Qed.

(** X6.  [removeModel] undoes [addModel]: removing the model that was just
    added gives the registry back; and removing a name that is not registered
    changes nothing. *)
Theorem removeModel_undoes_addModel (r r' : Restaman) (model : string)
    (w : ModelWrapper) :
  addModel r model = Normal (r', w) ->
  removeModel r' model = r /\
  removeModel r model = r.
Proof.
  unfold addModel. cbn [modelName new_ModelWrapper].
  destruct (getModelWrapper r model) eqn:Hget; [done|].
  intros [= <- <-]. unfold getModelWrapper in Hget. apply fmap_None in Hget.
  split.
  - unfold removeModel. cbn [models].
    rewrite list_find_app_r by done. cbn. rewrite decide_True by done. cbn.
    replace (0 + length (models r)) with (length (models r)) by lia.
    rewrite (delete_middle (models r) [] (new_ModelWrapper model)), app_nil_r.
    by destruct r.
  - unfold removeModel. by rewrite Hget.
Qed.

(** X7.  In a registry with distinct model names, a removed model is not
    found any more and the other models are found as before. *)
Theorem removeModel_removes (r : Restaman) (name : string) :
  NoDup (modelName <$> models r) ->
  getModelWrapper (removeModel r name) name = None /\
  forall other, other <> name ->
    getModelWrapper (removeModel r name) other = getModelWrapper r other.
Proof.
  intros Hnd. unfold removeModel.
  destruct (list_find (fun mw => modelName mw = name) (models r))
    as [[i w]|] eqn:Hfind.
  - apply list_find_Some in Hfind as (Hi & Hn & _).
    apply list_elem_of_split_length in Hi as (l1 & l2 & Hl & ->).
    rewrite Hl, delete_middle. rewrite Hl, fmap_app, fmap_cons in Hnd.
    apply NoDup_app in Hnd as (Hnd1 & Hdisj & Hnd2).
    apply NoDup_cons in Hnd2 as [Hw Hnd2].
    split.
    + apply getModelWrapper_None. cbn [models]. rewrite fmap_app.
      intros [Hin|Hin]%elem_of_app.
      * apply (Hdisj name Hin). rewrite Hn. by left.
      * by rewrite Hn in Hw.
    + intros other Hne. unfold getModelWrapper. cbn [models]. rewrite Hl.
      destruct (list_find (fun mw => modelName mw = other) l1) as [[j w1]|] eqn:H1.
      * by rewrite !(list_find_app_l _ _ _ _ _ H1).
      * rewrite !list_find_app_r by done. cbn.
        rewrite decide_False by congruence.
        by destruct (list_find _ l2) as [[? ?]|].
  - split; [|done]. unfold getModelWrapper. by rewrite Hfind.
Qed.

(** ** Router assembly *)

Lemma setupModel_frame w env :
  let w' := (setupModel w env).1 in
  modelName w' = modelName w /\ middlewares w' = middlewares w /\
  methods w' = methods w /\ statics w' = statics w /\ hidden w' = hidden w /\
  hooks w' type_pre = hooks w type_pre.
Proof.
  cbn zeta. rewrite setupModel_unfold. cbn [fst].
  destruct (addHook_frame document_actions w type_post HiddenHook)
    as (H1 & H2 & H3 & H4 & H5 & H6).
  repeat split; try done. by apply H6.
Qed.

(** The routes depend on the statics, the middlewares and the collection. *)
Lemma setupModelRoutes_ext w w' env :
  statics w' = statics w -> middlewares w' = middlewares w ->
  setupModelRoutes w' env = setupModelRoutes w env.
Proof.
  intros Hs Hm. unfold setupModelRoutes, middleware, getMiddleware, getStatics.
  by rewrite Hs, Hm.
Qed.

Lemma setupModel_routes w env : (setupModel w env).2 = setupModelRoutes w env.
Proof.
  destruct (setupModel_frame w env) as (_ & Hm & _ & Hs & _).
  rewrite setupModel_unfold in *. cbn [fst snd] in *.
  by apply setupModelRoutes_ext.
Qed.

Lemma setupModel_routes_again w env env' :
  setupModelRoutes (setupModel w env).1 env' = setupModelRoutes w env'.
Proof.
  destruct (setupModel_frame w env) as (_ & Hm & _ & Hs & _).
  by apply setupModelRoutes_ext.
Qed.

Lemma setupModel_modelName w env : modelName (setupModel w env).1 = modelName w.
Proof. apply (setupModel_frame w env). Qed.

#[local] Opaque setupModel.

Lemma initRouter_unfold mongoose (l : list ModelWrapper) : forall acc,
  foldl (fun acc modelWrapper =>
           let set_up := setupModel modelWrapper (mongoose (modelName modelWrapper)) in
           ({| models := models acc.1 ++ [set_up.1] |},
            {| router_use := router_use acc.2;
               router_routes := router_routes acc.2 ++ set_up.2 |}))
        acc l
  = ({| models := models acc.1
                  ++ ((fun w => (setupModel w (mongoose (modelName w))).1) <$> l) |},
     {| router_use := router_use acc.2;
        router_routes := router_routes acc.2
                         ++ flat_map (fun w => setupModelRoutes w (mongoose (modelName w))) l |}).
Proof.
  induction l as [| w l IH]; intros [[ms] [us rs]]; cbn [foldl].
  - cbn [fst snd models router_use router_routes fmap list_fmap flat_map].
    by rewrite !app_nil_r.
  - rewrite IH.
    cbn [fst snd models router_use router_routes fmap list_fmap flat_map].
    rewrite setupModel_routes. by rewrite <- !app_assoc.
Qed.

(** X8.  [router()] uses the JSON body parser and then lists, model after
    model in registration order, the routes of each registered wrapper; the
    route table depends on the statics, middlewares and collections only, so
    building a router again from the registry the first build left (whose
    wrappers carry the hidden-field hook) gives the same routes; and the
    registered names are unchanged. *)
Theorem router_lists_routes_per_model (r : Restaman) (mongoose : string -> Mongoose) :
  let built := router r mongoose in
  router_use built.2 = [BodyParserJson] /\
  router_routes built.2
  = flat_map (fun w => setupModelRoutes w (mongoose (modelName w))) (models r) /\
  models built.1 = (fun w => (setupModel w (mongoose (modelName w))).1) <$> models r /\
  modelName <$> models built.1 = modelName <$> models r /\
  router_routes (router built.1 mongoose).2 = router_routes built.2.
Proof.
  cbn zeta. unfold router, initRouter. rewrite !initRouter_unfold.
  cbn [fst snd models router_use router_routes app].
  split; [reflexivity|]. split; [reflexivity|]. split; [reflexivity|].
  generalize (models r). intros l. split.
  - induction l as [| w l IH]; [reflexivity|].
    cbn [fmap list_fmap] in *. by rewrite IH, setupModel_modelName.
  - induction l as [| w l IH]; [reflexivity|].
    cbn [fmap list_fmap flat_map] in *.
    by rewrite IH, setupModel_modelName, setupModel_routes_again.
Qed.

#[local] Transparent setupModel.

(** *** Hiding fields after the router is built *)

Lemma addHook_set_hidden action w fields type callback :
  (addHook (set_hidden w fields) type action callback).1
  = set_hidden (addHook w type action callback).1 fields.
Proof.
  rewrite !addHook_on_table. cbn [fst].
  assert (Hh : hooks (set_hidden w fields) type = hooks w type) by (by destruct type).
  rewrite Hh. by destruct type.
Qed.

(** X9.  Hiding fields before or after the router is built leaves the same
    wrapper: the hook of [setupModel] reads the hidden-field list when it
    runs.  So, without a catch-all post hook, the fields hidden after the build
    are cleared from the documents sent like those hidden before it. *)
Theorem hide_after_setupModel `{JsBuiltins}
    (w0 : ModelWrapper) (env : Mongoose) (fields : FieldsArg) :
  bucket w0 type_post "all" = [] ->
  let w := hide (setupModel w0 env).1 fields in
  w = (setupModel (hide w0 fields) env).1 /\
  forall a req res v,
    response (run (document_handler w env a) req res).1 = Some v ->
    hidden_cleared (hidden w0 ++ match fields with Fields l => l | Field f => [f] end) v.
Proof.
  intros Hall w.
  assert (Hw : w = (setupModel (hide w0 fields) env).1).
  { unfold w, hide. rewrite !setupModel_unfold. cbn [fst].
    rewrite addHook_set_hidden. by rewrite addHook_hidden. }
  split; [done|]. intros a req res v Hv. rewrite Hw in Hv.
  change (hidden w0 ++ _) with (hidden (hide w0 fields)).
  rewrite <- (setupModel_hidden (hide w0 fields) env).
  eapply triple_run; [|exact Hv]. by apply triple_document_handler.
Qed.

(** ** Query parser, further *)

(** X10.  [parseQuery] reads the keys [filter], [populate], [projection],
    [sort], [skip], [limit] and [start] of the query mapping and no other:
    mappings that agree on these give the same descriptor. *)
Theorem parseQuery_reads_seven_keys `{JsBuiltins} (q q' : Obj) :
  (forall k, k ∈ ["filter"; "populate"; "projection"; "sort"; "skip"; "limit"; "start"] ->
             obj_get q k = obj_get q' k) ->
  parseQuery q = parseQuery q'.
Proof.
  intros Hk.
  assert (Hf : obj_get q "filter" = obj_get q' "filter") by (apply Hk; by repeat constructor).
  assert (Hp : obj_get q "populate" = obj_get q' "populate") by (apply Hk; by repeat constructor).
  assert (Hj : obj_get q "projection" = obj_get q' "projection") by (apply Hk; by repeat constructor).
  assert (Hs : obj_get q "sort" = obj_get q' "sort") by (apply Hk; by repeat constructor).
  assert (Hsk : obj_get q "skip" = obj_get q' "skip") by (apply Hk; by repeat constructor).
  assert (Hl : obj_get q "limit" = obj_get q' "limit") by (apply Hk; by repeat constructor).
  assert (Hst : obj_get q "start" = obj_get q' "start") by (apply Hk; by repeat constructor).
  unfold parseQuery, parseQueryFilter, parseQueryPopulate, parseQueryProjection,
    parseQueryOptions, formatters. cbn.
  by rewrite Hf, Hp, Hj, Hs, Hsk, Hl, Hst.
Qed.

(** ** The handlers on their other paths *)

(** X11.  When the [filter] parameter parses to something that is not an
    object ([?filter=5], [?filter=null]), [findOne] throws out of the handler
    when it writes [_id] into the filter: after model resolution nothing runs,
    no pre hook of [findOne], no mapper call, and nothing is sent or forwarded
    to [next]. *)
Theorem findOne_throws_on_primitive_filter `{JsBuiltins}
    (w : ModelWrapper) (env : Mongoose) (st st1 : HState) (model : JsVal) :
  initModel w st = (st1, Normal model) ->
  instanceof_Object (parseQueryFilter (query (hs_req st1))) = false ->
  exists e, findOne w env st = (st1, Throw e).
Proof.
  intros Hinit Hprim. unfold findOne.
  rewrite (bind_normal _ _ _ _ _ Hinit), bind_get_req.
  change (read_prop (parseQuery (query (hs_req st1))) "filter")
    with (parseQueryFilter (query (hs_req st1))).
  destruct (parseQueryFilter (query (hs_req st1))); try done; by eexists.
Qed.

(** X12.  [find] has no not-found case.  For a request and pre hooks of
    [find] that are in step, the query descriptor sharing no object with the
    request or the hooks leaving the shared objects alone: once the lookup is
    reached, whatever the mapper resolves to, an empty list included, goes
    through the post hooks of [find] and is sent; a rejection is forwarded to
    [next] as it is, and nothing is sent.  Pre hooks that leave the shared
    objects alone give a lookup by the filter the request has. *)
Theorem find_sends_what_the_mapper_finds `{JsBuiltins}
    (w : ModelWrapper) (env : Mongoose) (st st1 st2 : HState)
    (model query2 : JsVal) :
  let populate := read_prop query2 "populate" in
  let call :=
    MFind model (read_prop query2 "filter") (read_prop query2 "projection")
          (read_prop query2 "options")
          (if truthy populate then Some populate else None) in
  initModel w st = (st1, Normal model) ->
  in_step w "find" (query (hs_req st1)) ->
  applyHooks w type_pre "find" (parseQuery (query (hs_req st1))) st1
  = (st2, Normal query2) ->
  (forall docs st3 docs',
     mapper env call = Resolved docs ->
     applyHooks w type_post "find" docs (with_trace st2 [EvMapper call])
     = (st3, Normal docs') ->
     find w env st = (with_trace st3 [EvSend docs'], Normal tt)) /\
  (forall e,
     mapper env call = Rejected e ->
     find w env st = (with_trace st2 [EvMapper call; EvNext e], Normal tt)) /\
  (Forall (keeps_shared w) (hooksToApply w type_pre "find") ->
   query (hs_req st2) = query (hs_req st1) /\
   read_prop query2 "filter" = parseQueryFilter (query (hs_req st1))).
Proof.
  intros populate call Hinit _ Hpre.
  assert (Hstart : find w env st
    = catch (docs ← await env call;
             docs ← applyHooks w type_post "find" docs;
             send docs) next st2).
  { unfold find. rewrite (bind_normal _ _ _ _ _ Hinit), bind_get_req.
    by rewrite (bind_normal _ _ _ _ _ Hpre). }
  split; [|split].
  - intros docs st3 docs' Hdocs Hpost. rewrite Hstart.
    erewrite catch_normal; [done|].
    erewrite bind_normal by (by apply await_resolved).
    rewrite (bind_normal _ _ _ _ _ Hpost). by rewrite send_eq.
  - intros e He. rewrite Hstart.
    erewrite catch_throw; [|erewrite bind_throw; [done|]; unfold await;
                            rewrite bind_emit; by rewrite He].
    rewrite next_eq. by rewrite with_trace_app.
  - intros Hkeep.
    destruct (callHooks_keeps_shared w type_pre "find" _ Hkeep _ _ _ _ Hpre)
      as [Hq Hshared].
    split; [done|]. by apply Forall_cons in Hshared as [Hf _].
Qed.

(** X13.  [create] with a body that is not an array: the pre hooks of
    [create] are called without a payload, and what is inserted is the body of
    the request as they left it.  The created document goes through the post
    hooks and is sent; a rejection of the insert is forwarded to [next]. *)
Theorem create_inserts_the_body
    (w : ModelWrapper) (env : Mongoose) (st st1 st2 : HState) (model p : JsVal) :
  let insert := MCreate model (body (hs_req st2)) in
  instanceof_Array (body (hs_req st)) = false ->
  initModel w st = (st1, Normal model) ->
  applyHooks w type_pre "create" VUndefined st1 = (st2, Normal p) ->
  (forall doc st3 doc',
     mapper env insert = Resolved doc ->
     applyHooks w type_post "create" doc (with_trace st2 [EvMapper insert])
     = (st3, Normal doc') ->
     create w env st = (with_trace st3 [EvSend doc'], Normal tt)) /\
  (forall e,
     mapper env insert = Rejected e ->
     create w env st = (with_trace st2 [EvMapper insert; EvNext e], Normal tt)).
Proof.
  intros insert Harr Hinit Hpre.
  assert (Hstart : create w env st
    = catch (doc ← await env insert;
             doc ← applyHooks w type_post "create" doc;
             send doc) next st2).
  { unfold create. rewrite bind_get_req, create_guard_arrays_only, Harr.
    rewrite (bind_normal _ _ _ _ _ Hinit), (bind_normal _ _ _ _ _ Hpre).
    by rewrite bind_get_req. }
  split.
  - intros doc st3 doc' Hdoc Hpost. rewrite Hstart.
    erewrite catch_normal; [done|].
    erewrite bind_normal by (by apply await_resolved).
    rewrite (bind_normal _ _ _ _ _ Hpost). by rewrite send_eq.
  - intros e He. rewrite Hstart.
    erewrite catch_throw; [|erewrite bind_throw; [done|]; unfold await;
                            rewrite bind_emit; by rewrite He].
    rewrite next_eq. by rewrite with_trace_app.
Qed.

(** X14.  A pre hook of [create] that throws makes [create] throw: the
    exception leaves the handler, nothing is forwarded to [next], and the
    insert is not made. *)
Theorem create_throws_a_pre_hook_error
    (w : ModelWrapper) (env : Mongoose) (st st1 st2 : HState) (model e : JsVal) :
  instanceof_Array (body (hs_req st)) = false ->
  initModel w st = (st1, Normal model) ->
  applyHooks w type_pre "create" VUndefined st1 = (st2, Throw e) ->
  create w env st = (st2, Throw e) /\
  exists evs, hs_trace st2 = hs_trace st ++ evs /\
              Forall (fun ev => ~ is_answer ev /\ ~ is_write ev) evs.
Proof.
  intros Harr Hinit Hpre. split.
  - unfold create. rewrite bind_get_req, create_guard_arrays_only, Harr.
    rewrite (bind_normal _ _ _ _ _ Hinit). by rewrite (bind_throw _ _ _ _ _ Hpre).
  - destruct (initModel_trace w st) as (evs1 & Htr1 & Hev1).
    rewrite Hinit in Htr1. cbn in Htr1.
    destruct (applyHooks_trace w type_pre "create" VUndefined st1) as (evs2 & Htr2 & Hev2).
    rewrite Hpre in Htr2. cbn in Htr2.
    exists (evs1 ++ evs2). rewrite Htr2, Htr1, app_assoc. split; [done|].
    apply Forall_app. split.
    + eapply Forall_impl; [exact Hev1|]. intros ev Hev.
      unfold init_event, is_answer in *. destruct ev; cbn in *; tauto.
    + eapply Forall_impl; [exact Hev2|]. intros ev Hev.
      unfold is_answer. destruct ev; cbn in *; tauto.
Qed.

(** *** update *)

Lemma obj_keys_replace (o : Obj) k v : obj_keys (obj_replace o k v) = obj_keys o.
Proof.
  unfold obj_keys. induction o as [| [k' v'] o IH]; cbn; [done|].
  destruct (String.eqb k' k); cbn; [done|]. by rewrite IH.
Qed.

(** A new key is put somewhere among the keys there are. *)
Lemma obj_keys_insert (o : Obj) k v :
  exists l1 l2, obj_keys o = l1 ++ l2 /\ obj_keys (obj_insert o k v) = l1 ++ k :: l2.
Proof.
  unfold obj_keys. induction o as [| [k' v'] o IH]; cbn.
  - by exists [], [].
  - destruct (enumerated_before k k'); cbn.
    + by exists [], (k' :: o.*1).
    + destruct IH as (l1 & l2 & Ho & Hins). exists (k' :: l1), l2.
      cbn. by rewrite Ho, Hins.
Qed.

Lemma obj_keys_set_sublist (o : Obj) k v :
  obj_keys o `sublist_of` obj_keys (obj_set o k v).
Proof.
  unfold obj_set. case_bool_decide.
  - by rewrite obj_keys_replace.
  - destruct (obj_keys_insert o k v) as (l1 & l2 & -> & ->).
    apply sublist_app; [done|]. by apply sublist_cons.
Qed.

Lemma elem_of_obj_keys_set (o : Obj) k v k' :
  k' ∈ obj_keys (obj_set o k v) <-> k' = k \/ k' ∈ obj_keys o.
Proof.
  unfold obj_set. case_bool_decide as Hk.
  - rewrite obj_keys_replace. split; [by right|]. by intros [->|?].
  - destruct (obj_keys_insert o k v) as (l1 & l2 & -> & ->).
    rewrite !elem_of_app, elem_of_cons. tauto.
Qed.

Lemma obj_put_plain (o : Obj) k v : k <> "__proto__" -> obj_put o k v = obj_set o k v.
Proof. intros Hk. unfold obj_put. rewrite bool_decide_eq_false_2; [done|]. tauto. Qed.

(** [Object.assign] of a body that has no key [__proto__]: the fields of the
    body replace or extend those of the target. *)
Lemma Object_assign_fields (b : Obj) : forall (o : Obj) k,
  NoDup (obj_keys b) -> "__proto__" ∉ obj_keys b ->
  obj_get (Object_assign o (VObj b)) k
  = if decide (k ∈ obj_keys b) then obj_get b k else obj_get o k.
Proof.
  unfold Object_assign, obj_keys. cbn [own_props].
  induction b as [| [k0 v0] b IH]; intros o k Hnd Hproto; cbn.
  - by rewrite decide_False by apply not_elem_of_nil.
  - apply NoDup_cons in Hnd as [Hk0 Hnd].
    apply not_elem_of_cons in Hproto as [Hne0 Hproto].
    rewrite IH by done. rewrite obj_put_plain by done.
    destruct (String.eqb_spec k0 k) as [->|Hne].
    + rewrite decide_False by done. rewrite decide_True by (by left).
      apply obj_get_set_same.
    + destruct (decide (k ∈ b.*1)) as [Hin|Hnin].
      * rewrite decide_True; [done|]. by right.
      * rewrite decide_False by (intros [->|?]%elem_of_cons; done).
        by apply obj_get_set_other.
Qed.

Lemma Object_assign_keys (b : Obj) : forall (o : Obj),
  "__proto__" ∉ obj_keys b ->
  obj_keys o `sublist_of` obj_keys (Object_assign o (VObj b)) /\
  forall k, k ∈ obj_keys (Object_assign o (VObj b))
            <-> k ∈ obj_keys o \/ k ∈ obj_keys b.
Proof.
  unfold Object_assign. cbn [own_props].
  induction b as [| [k0 v0] b IH]; intros o Hproto; cbn [foldl].
  - split; [done|]. intros k. unfold obj_keys at 3. cbn.
    rewrite elem_of_nil. tauto.
  - unfold obj_keys in Hproto. cbn in Hproto.
    apply not_elem_of_cons in Hproto as [Hne0 Hproto].
    cbn [fst snd]. rewrite obj_put_plain by done.
    destruct (IH (obj_set o k0 v0) Hproto) as [Hsub Hin]. split.
    + etrans; [apply obj_keys_set_sublist|exact Hsub].
    + intros k. rewrite Hin, elem_of_obj_keys_set.
      unfold obj_keys at 4. cbn. rewrite elem_of_cons. tauto.
Qed.

Lemma assigns_prototype_plain (o b : Obj) :
  "__proto__" ∉ obj_keys b -> assigns_prototype o (VObj b) = false.
Proof.
  intros Hproto. unfold assigns_prototype. cbn [own_props].
  apply andb_false_iff. right.
  induction b as [| [k0 v0] b IH]; [done|].
  unfold obj_keys in Hproto. cbn in Hproto.
  apply not_elem_of_cons in Hproto as [Hne0 Hproto]. cbn.
  destruct (String.eqb_spec k0 "__proto__") as [->|_]; [done|]. by apply IH.
Qed.

(** X15.  [update] saves the found document, as the pre hooks of [update]
    left it, with the fields of the body merged into it: a field of the body
    replaces the one of the document or is added to it, whether or not it is
    hidden, and the other fields stay, in their order.  What the save resolves
    to goes through the post hooks and is sent; a rejection is forwarded.  A
    field [save] of the body is in the way of the document's method: a
    [TypeError] is forwarded and nothing is saved. *)
Theorem update_saves_the_merged_document
    (w : ModelWrapper) (env : Mongoose) (st st1 st2 : HState)
    (model found : JsVal) (o b : Obj) :
  let lookup :=
    MFindOne model (VObj [("_id", obj_get (params (hs_req st1)) "id")]) VUndefined None in
  let merged := Object_assign o (VObj b) in
  initModel w st = (st1, Normal model) ->
  mapper env lookup = Resolved found -> truthy found = true ->
  applyHooks w type_pre "update" found (with_trace st1 [EvMapper lookup])
  = (st2, Normal (VObj o)) ->
  "save" ∉ obj_keys o ->
  body (hs_req st2) = VObj b -> NoDup (obj_keys b) -> "__proto__" ∉ obj_keys b ->
  (forall k, obj_get merged k
             = if decide (k ∈ obj_keys b) then obj_get b k else obj_get o k) /\
  obj_keys o `sublist_of` obj_keys merged /\
  (forall k, k ∈ obj_keys merged <-> k ∈ obj_keys o \/ k ∈ obj_keys b) /\
  ("save" ∈ obj_keys b ->
   exists e, read_prop e "name" = VStr "TypeError" /\
             update w env st = (with_trace st2 [EvNext e], Normal tt)) /\
  ("save" ∉ obj_keys b ->
   (forall saved st3 saved',
      mapper env (MSave (VObj merged)) = Resolved saved ->
      applyHooks w type_post "update" saved
                 (with_trace st2 [EvMapper (MSave (VObj merged))])
      = (st3, Normal saved') ->
      update w env st = (with_trace st3 [EvSend saved'], Normal tt)) /\
   (forall e,
      mapper env (MSave (VObj merged)) = Rejected e ->
      update w env st
      = (with_trace st2 [EvMapper (MSave (VObj merged)); EvNext e], Normal tt))).
Proof.
  intros lookup merged Hinit Hfound Htruthy Hpre Ho Hbody Hnd Hproto.
  destruct (Object_assign_keys b o Hproto) as [Hsub Hkeys]. fold merged in Hsub, Hkeys.
  split; [intros k; by apply Object_assign_fields|].
  split; [done|]. split; [done|].
  assert (Hby : findById env (obj_get (params (hs_req st1)) "id") model st1
                = (with_trace st1 [EvMapper lookup], Normal found)).
  { unfold findById.
    rewrite (bind_normal _ _ _ _ _ (await_resolved env _ _ st1 Hfound)).
    by rewrite Htruthy. }
  assert (Hstart : update w env st
    = catch (doc ← (if has_method merged "save"
                    then await env (MSave (VObj merged))
                    else throw (TypeError "Object.assign(...).save is not a function"));
             doc ← applyHooks w type_post "update" doc;
             send doc) next st2).
  { unfold update. rewrite (bind_normal _ _ _ _ _ Hinit), bind_get_req.
    unfold catch at 1 2.
    rewrite (bind_normal _ _ _ _ _ Hby), (bind_normal _ _ _ _ _ Hpre).
    rewrite bind_get_req, Hbody. fold merged.
    by rewrite assigns_prototype_plain. }
  split.
  - intros Hsave. eexists. split; [|rewrite Hstart; unfold has_method].
    2: { rewrite bool_decide_eq_false_2 by (rewrite Hkeys; tauto).
         erewrite catch_throw; [|by erewrite bind_throw]. by rewrite next_eq. }
    reflexivity.
  - intros Hb. unfold has_method in Hstart.
    rewrite bool_decide_eq_true_2 in Hstart by (rewrite Hkeys; tauto).
    split.
    + intros saved st3 saved' Hsave Hpost. rewrite Hstart.
      erewrite catch_normal; [done|].
      erewrite bind_normal by (by apply await_resolved).
      rewrite (bind_normal _ _ _ _ _ Hpost). by rewrite send_eq.
    + intros e He. rewrite Hstart.
      erewrite catch_throw; [|erewrite bind_throw; [done|]; unfold await;
                              rewrite bind_emit; by rewrite He].
      rewrite next_eq. by rewrite with_trace_app.
Qed.

(** X16.  A pre hook of [update] or of [delete] runs inside the promise
    chain: when a pre hook of the handler's action throws, the error is
    forwarded to [next] and the handler returns; after the lookup nothing but
    the pre hooks of that action has run, and the document is neither saved
    nor removed. *)
Theorem update_delete_forward_a_pre_hook_error
    (w : ModelWrapper) (env : Mongoose) (a : ByIdAction) (st st1 st2 : HState)
    (model found e : JsVal) :
  let lookup :=
    MFindOne model (VObj [("_id", obj_get (params (hs_req st1)) "id")]) VUndefined None in
  initModel w st = (st1, Normal model) ->
  mapper env lookup = Resolved found -> truthy found = true ->
  applyHooks w type_pre (by_id_name a) found (with_trace st1 [EvMapper lookup])
  = (st2, Throw e) ->
  by_id_handler w env a st = (with_trace st2 [EvNext e], Normal tt) /\
  exists evs,
    hs_trace st2 = hs_trace st1 ++ EvMapper lookup :: evs /\
    Forall (hook_event type_pre (by_id_name a)) evs.
Proof.
  intros lookup Hinit Hfound Htruthy Hpre.
  assert (Hby : findById env (obj_get (params (hs_req st1)) "id") model st1
                = (with_trace st1 [EvMapper lookup], Normal found)).
  { unfold findById.
    rewrite (bind_normal _ _ _ _ _ (await_resolved env _ _ st1 Hfound)).
    by rewrite Htruthy. }
  split.
  - destruct a; cbn [by_id_handler by_id_name] in *.
    + unfold update. rewrite (bind_normal _ _ _ _ _ Hinit), bind_get_req.
      erewrite catch_throw;
        [|rewrite (bind_normal _ _ _ _ _ Hby); by rewrite (bind_throw _ _ _ _ _ Hpre)].
      by rewrite next_eq.
    + unfold delete. rewrite (bind_normal _ _ _ _ _ Hinit), bind_get_req.
      erewrite catch_throw;
        [|rewrite (bind_normal _ _ _ _ _ Hby); by rewrite (bind_throw _ _ _ _ _ Hpre)].
      by rewrite next_eq.
  - destruct (applyHooks_trace w type_pre (by_id_name a) found
                (with_trace st1 [EvMapper lookup])) as (evs & Htr & Hev).
    rewrite Hpre in Htr. cbn in Htr.
    exists evs. by rewrite Htr, <- !app_assoc.
Qed.

(** ** One answer for a request *)

Lemma unanswered_with_trace st evs :
  unanswered st -> Forall (fun e => ~ is_answer e) evs ->
  unanswered (with_trace st evs).
Proof. unfold unanswered. cbn. intros. by apply Forall_app. Qed.

Lemma answered_with_trace st e :
  unanswered st -> is_answer e -> answered_once (with_trace st [e]).
Proof. intros Hst He. by exists (hs_trace st), e. Qed.

Lemma hook_event_not_answer type action e : hook_event type action e -> ~ is_answer e.
Proof. unfold is_answer. destruct e; cbn; tauto. Qed.

Section Settles.
Context {A B : Type}.

Lemma settles_bind (P : HState -> Prop) (m : Handler A) (Q : A -> HState -> Prop)
    (k : A -> Handler B) (R : B -> HState -> Prop) :
  settles P m Q -> (forall a, settles (Q a) (k a) R) -> settles P (m ≫= k) R.
Proof.
  intros Hm Hk st HP. specialize (Hm st HP).
  unfold mbind, Handler_bind, bind. destruct (m st) as [st' [a|e]]; [|done].
  by apply Hk.
Qed.

Lemma settles_ret (P : HState -> Prop) (a : A) : settles P (mret a) (fun _ => P).
Proof. by intros st HP. Qed.

Lemma settles_throw (Q : A -> HState -> Prop) (e : JsVal) :
  settles unanswered (throw e) Q.
Proof. by intros st HP. Qed.

Lemma settles_lift (c : Completion A) :
  settles unanswered (lift c) (fun _ => unanswered).
Proof. intros st HP. by destruct c. Qed.
End Settles.

Lemma settles_get_req (P : HState -> Prop) : settles P get_req (fun _ => P).
Proof. by intros st HP. Qed.

Lemma settles_next (e : JsVal) :
  settles unanswered (next e) (fun _ => answered_once).
Proof.
  intros st HP. rewrite next_eq. apply answered_with_trace; [done|]. by right.
Qed.

Lemma settles_send (v : JsVal) :
  settles unanswered (send v) (fun _ => answered_once).
Proof.
  intros st HP. rewrite send_eq. apply answered_with_trace; [done|]. by left.
Qed.

Lemma settles_catch (m : Handler unit) :
  settles unanswered m (fun _ => answered_once) ->
  settles unanswered (catch m next) (fun _ => answered_once).
Proof.
  intros Hm st HP. specialize (Hm st HP). unfold catch.
  destruct (m st) as [st' [a|e]]; [done|]. by apply settles_next.
Qed.

Lemma settles_emit (e : Event) :
  ~ is_answer e -> settles unanswered (emit e) (fun _ => unanswered).
Proof.
  intros He st HP. apply (unanswered_with_trace st [e]); [done|].
  by repeat constructor.
Qed.

Lemma settles_await (env : Mongoose) (call : MapperCall) :
  settles unanswered (await env call) (fun _ => unanswered).
Proof.
  unfold await. eapply settles_bind.
  - apply settles_emit. unfold is_answer. cbn. tauto.
  - intros []. destruct (mapper env call); [apply settles_ret|apply settles_throw].
Qed.

Lemma settles_applyHooks w type action data :
  settles unanswered (applyHooks w type action data) (fun _ => unanswered).
Proof.
  intros st HP.
  destruct (applyHooks_trace w type action data st) as (evs & Htr & Hev).
  assert (Hq : unanswered (applyHooks w type action data st).1).
  { unfold unanswered. rewrite Htr. apply Forall_app. split; [done|].
    eapply Forall_impl; [exact Hev|]. intros e. apply hook_event_not_answer. }
  by destruct (applyHooks w type action data st) as [st' [a|e]].
Qed.

Lemma settles_initModel w : settles unanswered (initModel w) (fun _ => unanswered).
Proof.
  unfold initModel. eapply settles_bind; [apply settles_applyHooks|].
  intros params. apply settles_applyHooks.
Qed.

Lemma settles_findById env id model :
  settles unanswered (findById env id model) (fun _ => unanswered).
Proof.
  unfold findById. eapply settles_bind; [apply settles_await|].
  intros doc. destruct (negb (truthy doc)); [apply settles_throw|apply settles_ret].
Qed.

Lemma settles_write_shared_filter filter :
  settles unanswered (write_shared_filter filter) (fun _ => unanswered).
Proof.
  intros st HP. unfold write_shared_filter.
  by destruct (instanceof_Object _).
Qed.

Create HintDb settles discriminated.
#[local] Hint Resolve settles_get_req settles_await settles_applyHooks
  settles_initModel settles_findById settles_throw settles_ret settles_lift
  settles_send settles_next settles_write_shared_filter : settles.

(** One step through a bind whose first computation answers nothing. *)
Ltac settles_step :=
  eapply settles_bind; [solve [eauto with settles] | intros ?].

(** A bind whose first computation is a case analysis. *)
Ltac settles_cases :=
  eapply settles_bind;
    [repeat match goal with
            | |- settles _ (match ?d with _ => _ end) _ => destruct d
            | |- settles _ (if ?c then _ else _) _ => destruct c
            end; eauto with settles
    | intros ?].

Lemma settles_call `{JsBuiltins} (w : ModelWrapper) (env : Mongoose)
    (action method : string) (model : JsVal) :
  settles unanswered
    (catch (match model_members env !! method with
            | Some (MFunction paramNames _method) =>
                req ← get_req;
                params ← lift (bindParams paramNames (body req));
                emit (EvInvoke method model params);;
                result ← match _method model params with
                         | RValue v => mret v
                         | RPromise (Resolved v) => mret v
                         | RPromise (Rejected e) => throw e
                         | RThrow e => throw e
                         end;
                applyHooks w type_post action (VStr method);;
                send result
            | _ => throw (TypeError "not a function")
            end) next)
    (fun _ => answered_once).
Proof.
  apply settles_catch.
  destruct (model_members env !! method) as [[paramNames impl|v]|];
    [|apply settles_throw..].
  do 2 settles_step.
  eapply settles_bind; [apply settles_emit; unfold is_answer; cbn; tauto | intros ?].
  eapply settles_bind.
  { destruct (impl _ _) as [v|[v|e]|e]; eauto with settles. }
  intros ?. settles_step. apply settles_send.
Qed.

Lemma settles_endpoint `{JsBuiltins} (w : ModelWrapper) (env : Mongoose)
    (ep : Endpoint) :
  settles unanswered (endpoint_handler w env ep) (fun _ => answered_once).
Proof.
  destruct ep; cbn [endpoint_handler].
  - unfold create. settles_step.
    destruct (_ || _); [apply settles_next|].
    do 3 settles_step. apply settles_catch. do 2 settles_step. apply settles_send.
  - unfold find. do 3 settles_step. apply settles_catch.
    do 2 settles_step. apply settles_send.
  - unfold findOne. do 6 settles_step. apply settles_catch. settles_step.
    settles_cases. settles_step. apply settles_send.
  - unfold update. do 2 settles_step. apply settles_catch. do 3 settles_step.
    settles_cases. settles_step. apply settles_send.
  - unfold delete. do 2 settles_step. apply settles_catch. do 2 settles_step.
    settles_cases. settles_step. apply settles_send.
  - unfold count. do 3 settles_step. apply settles_catch.
    do 2 settles_step. apply settles_send.
  - unfold callMethod. do 2 settles_step. apply settles_call.
  - unfold callStatic. do 2 settles_step. apply settles_call.
Qed.

(** X17.  Every handler answers a request at most once: when it returns, the
    trace holds exactly one answer, a response sent or an error forwarded to
    [next], and it is its last event; when it throws, the request has not been
    answered. *)
Theorem handlers_answer_once `{JsBuiltins}
    (w : ModelWrapper) (env : Mongoose) (ep : Endpoint)
    (req : Request) (res : JsVal) :
  match run (endpoint_handler w env ep) req res with
  | (st', Normal _) => answered_once st'
  | (st', Throw _) => unanswered st'
  end.
Proof.
  unfold run. apply (settles_endpoint w env ep). constructor.
Qed.

(** ** Exposed methods, further *)

Lemma set_statics_same w : set_statics w (statics w) = w.
Proof. by destruct w. Qed.

(** X18.  [exposeStatic] is idempotent and [exposeMethod] is not: exposing
    a static method again leaves the wrapper as the first call left it, while
    exposing an instance method again adds a second, equal descriptor. *)
Theorem exposeStatic_idempotent_exposeMethod_not
    (w : ModelWrapper) (env : Mongoose) (m : MethodArg) :
  (forall w1, exposeStatic w env m = Normal w1 ->
              exposeStatic w1 env m = Normal w1) /\
  (forall w1, exposeMethod w env m = Normal w1 ->
              exists w2, exposeMethod w1 env m = Normal w2 /\
                         methods w2 = methods w ++ [descriptor m; descriptor m]).
Proof.
  split.
  - intros w1. unfold exposeStatic.
    destruct (slot_instanceof_Function _); [|done].
    destruct (list_find _ (statics w)) as [[i d0]|] eqn:Hfind; intros [= <-];
      cbn [statics set_statics].
    + apply list_find_Some in Hfind as (Hi & Heq & Hfirst).
      assert (Hlt : i < length (statics w)) by (by eapply lookup_lt_Some).
      assert (Hagain : list_find (fun d => exposeName d = exposeName (descriptor m))
                         (<[i := descriptor m]> (statics w))
                       = Some (i, descriptor m)).
      { apply list_find_Some. split; [by apply list_lookup_insert_eq|].
        split; [done|]. intros j y Hj Hji.
        rewrite list_lookup_insert_ne in Hj by lia. by eapply Hfirst. }
      rewrite Hagain. by rewrite list_insert_insert_eq.
    + assert (Hagain : list_find (fun d => exposeName d = exposeName (descriptor m))
                         (statics w ++ [descriptor m])
                       = Some (length (statics w), descriptor m)).
      { rewrite list_find_app_r by done. cbn. by rewrite decide_True. }
      rewrite Hagain. do 2 f_equal. apply list_insert_id.
      by rewrite lookup_app_r, Nat.sub_diag.
  - intros w1. unfold exposeMethod.
    destruct (instanceof_Function _); [|done]. intros [= <-].
    eexists. split; [done|]. cbn. by rewrite <- app_assoc.
Qed.

Lemma exposeStatics_unique env ms : forall w,
  NoDup (exposeName <$> statics w) ->
  NoDup (exposeName <$> statics (exposeStatics w env ms)).
Proof.
  induction ms as [| m ms IH]; intros w Hnd; [done|].
  cbn. apply IH. destruct (exposeStatic w env m) as [w'|e] eqn:Hm; [|done].
  by eapply exposeStatic_keeps_unique.
Qed.

Lemma append_inj_r (p a b : string) : p +:+ a = p +:+ b -> a = b.
Proof. induction p as [| c p IH]; cbn; [done|]. intros [= Heq]. by apply IH. Qed.

(** X19.  Whatever static methods are exposed on a new wrapper, the expose
    names of its statics list are pairwise distinct, and so are the paths of
    the POST routes built for them. *)
Theorem exposed_statics_have_distinct_routes
    (n : string) (env : Mongoose) (ms : list MethodArg) :
  let w := exposeStatics (new_ModelWrapper n) env ms in
  NoDup (exposeName <$> getStatics w) /\
  take (length (getStatics w)) (setupModelRoutes w env)
  = (fun d => {| route_verb := POST;
                 route_path := "/" +:+ collectionName env +:+ "/" +:+ exposeName d;
                 route_middleware := None;
                 route_handler := RunCallStatic (name d) |}) <$> getStatics w /\
  NoDup (route_path <$> take (length (getStatics w)) (setupModelRoutes w env)).
Proof.
  intros w.
  assert (Hnd : NoDup (exposeName <$> getStatics w)).
  { apply exposeStatics_unique. constructor. }
  assert (Htake : take (length (getStatics w)) (setupModelRoutes w env)
    = (fun d => {| route_verb := POST;
                   route_path := "/" +:+ collectionName env +:+ "/" +:+ exposeName d;
                   route_middleware := None;
                   route_handler := RunCallStatic (name d) |}) <$> getStatics w).
  { unfold setupModelRoutes.
    rewrite take_app_le by (by rewrite length_map).
    rewrite firstn_all2 by (by rewrite length_map). reflexivity. }
  split; [done|]. split; [done|]. rewrite Htake, <- list_fmap_compose.
  change (NoDup ((fun a => "/" +:+ collectionName env +:+ "/" +:+ a) ∘ exposeName
                 <$> getStatics w)).
  rewrite list_fmap_compose. apply NoDup_fmap_2; [|done].
  intros a b Heq. by do 3 apply append_inj_r in Heq.
Qed.

(** ** callMethod and callStatic, on failure *)

(** X20.  Once the pre hooks of its action have returned, [callStatic], and
    likewise [callMethod], does not throw: whatever fails afterwards, the
    lookup of the method, the binding of the parameters, the call, the promise
    or a post hook, is forwarded to [next].  A name that is not a function of
    the model is answered by a [TypeError] forwarded to [next], without any
    call. *)
Theorem call_handlers_forward_failures
    (w : ModelWrapper) (env : Mongoose) (kind : CallKind) (method : string)
    (st st1 st2 : HState) (model p : JsVal) :
  initModel w st = (st1, Normal model) ->
  applyHooks w type_pre (call_action kind) (VStr method) st1 = (st2, Normal p) ->
  (exists st', call_handler w env kind method st = (st', Normal tt)) /\
  (instanceof_Function (model_members env !! method) = false ->
   exists e, read_prop e "name" = VStr "TypeError" /\
             call_handler w env kind method st
             = (with_trace st2 [EvNext e], Normal tt)).
Proof.
  intros Hinit Hpre.
  assert (Hcatch : forall (m : Handler unit) st0,
             exists st', catch m next st0 = (st', Normal tt)).
  { intros m st0. unfold catch. destruct (m st0) as [st' [[]|e]]; by eexists. }
  destruct kind; cbn [call_handler call_action] in *.
  - unfold callStatic.
    rewrite (bind_normal _ _ _ _ _ Hinit), (bind_normal _ _ _ _ _ Hpre).
    split; [apply Hcatch|]. intros Hfun. exists (TypeError "not a function").
    split; [done|]. by destruct (model_members env !! method) as [[? ?|?]|].
  - unfold callMethod.
    rewrite (bind_normal _ _ _ _ _ Hinit), (bind_normal _ _ _ _ _ Hpre).
    split; [apply Hcatch|]. intros Hfun. exists (TypeError "not a function").
    split; [done|]. by destruct (model_members env !! method) as [[? ?|?]|].
Qed.

(** ** The further properties on the models of the test suite *)

(** Adding [Test] to a registry that holds [Post], and removing it again. *)
Lemma removeModel_undoes_addModel_Test :
  let r := {| models := [new_ModelWrapper "Post"] |} in
  removeModel {| models := [new_ModelWrapper "Post"; new_ModelWrapper "Test"] |} "Test"
  = r /\
  removeModel r "Test" = r.
Proof.
  intros r.
  exact (removeModel_undoes_addModel r
           {| models := [new_ModelWrapper "Post"; new_ModelWrapper "Test"] |}
           "Test" (new_ModelWrapper "Test") eq_refl).
Defined.

(** Removing [Post] from a registry that holds [Post] and [Test]. *)
Lemma removeModel_removes_Post :
  let r := {| models := [new_ModelWrapper "Post"; new_ModelWrapper "Test"] |} in
  getModelWrapper (removeModel r "Post") "Post" = None /\
  getModelWrapper (removeModel r "Post") "Test" = Some (new_ModelWrapper "Test").
Proof.
  intros r.
  assert (Hnd : NoDup (modelName <$> models r)).
  { cbn. apply NoDup_cons. split; [not_in_list|apply NoDup_singleton]. }
  destruct (removeModel_removes r "Post" Hnd) as [Hgone Hkept].
  split; [exact Hgone|]. by rewrite Hkept.
Defined.

(** Fields hidden after the router is built are cleared like the others. *)
Lemma hide_after_setupModel_on_create :
  let w0 := hide (new_ModelWrapper "Post") (Field "field1") in
  let w := hide (setupModel w0 Post).1 (Field "field2") in
  let st := request (VObj [("title", VStr "some title"); ("field2", VStr "222")]) [] [] in
  let sent := VObj [("title", VStr "some title"); ("field2", VUndefined);
                    ("field1", VUndefined)] in
  response (create w Post st).1 = Some sent /\
  hidden_cleared ["field1"; "field2"] sent.
Proof.
  intros w0 w st sent.
  assert (Hsent : response (create w Post st).1 = Some sent) by reflexivity.
  split; [exact Hsent|].
  assert (Hall : bucket w0 type_post "all" = []) by reflexivity.
  exact (proj2 (@hide_after_setupModel no_text w0 Post (Field "field2") Hall)
               DoCreate _ _ sent Hsent).
Defined.

(** A parameter that is not one of the seven keys changes nothing. *)
Lemma parseQuery_ignores_cache_parameter :
  @parseQuery no_text [("limit", VStr "1"); ("cache", VStr "no")]
  = @parseQuery no_text [("limit", VStr "1")].
Proof.
  apply (@parseQuery_reads_seven_keys no_text). intros k Hk.
  repeat (apply elem_of_cons in Hk as [->|Hk]; [reflexivity|]).
  by apply elem_of_nil in Hk.
Defined.

(** [GET /tests/1?filter=5] *)
Lemma findOne_throws_on_filter_5 :
  let st := request (VObj []) [("filter", VStr "5")] [("id", VStr "1")] in
  exists e, @findOne parses_five (new_ModelWrapper "Test") Test st = (st, Throw e).
Proof.
  intros st.
  exact (@findOne_throws_on_primitive_filter parses_five (new_ModelWrapper "Test")
           Test st st _ (initModel_new "Test" st) eq_refl).
Defined.

(** [GET /tests] on an empty collection sends the empty list. *)
Lemma find_on_empty_collection :
  let st := request (VObj []) [] [] in
  let call := MFind (model (new_ModelWrapper "Test") (VObj []))
                    (VObj []) VNull (VObj []) None in
  @find no_text (new_ModelWrapper "Test") Test st
  = (with_trace st [EvMapper call; EvSend (VArr [])], Normal tt).
Proof.
  intros st call.
  assert (Hunshared : unshared (query (hs_req st))) by (by repeat constructor).
  pose proof (@find_sends_what_the_mapper_finds no_text (new_ModelWrapper "Test")
                Test st st st (model (new_ModelWrapper "Test") (VObj []))
                (@parseQuery no_text [])
                (initModel_new "Test" st) (or_introl Hunshared)
                (applyHooks_new "Test" _ "find" _ st (plain_name "find" I))) as Hfind.
  exact (proj1 Hfind (VArr []) _ _ eq_refl
               (applyHooks_new "Test" _ "find" _ _ (plain_name "find" I))).
Defined.

(** [POST /posts] with the pre hook of [create] of the test suite: the
    content the hook adds to the body is inserted. *)
Lemma create_inserts_the_hooked_body :
  let w := (pre (new_ModelWrapper "Post") (Action "create") addBodyContent).1 in
  let st := request (VObj [("title", VStr "some title")]) [] [] in
  let doc := VObj [("title", VStr "some title");
                   ("content", VStr "from pre create hook")] in
  hs_trace (create w Post st).1
  = [EvHook type_pre "create" addBodyContent (hs_req st) (hs_res st) VUndefined;
     EvMapper (MCreate (model w (VObj [])) doc);
     EvSend doc].
Proof.
  intros w st doc.
  set (st2 := {| hs_req := {| body := doc; query := []; params := [] |};
                 hs_res := hs_res st;
                 hs_trace := [EvHook type_pre "create" addBodyContent
                                     (hs_req st) (hs_res st) VUndefined] |}).
  assert (Hinit : initModel w st = (st, Normal (model w (VObj [])))) by reflexivity.
  assert (Hpre : applyHooks w type_pre "create" VUndefined st = (st2, Normal VUndefined))
    by reflexivity.
  pose proof (create_inserts_the_body w Post st st st2 _ _ eq_refl Hinit Hpre) as Hc.
  assert (Hpost : applyHooks w type_post "create" doc
                    (with_trace st2 [EvMapper (MCreate (model w (VObj [])) doc)])
                  = (with_trace st2 [EvMapper (MCreate (model w (VObj [])) doc)],
                     Normal doc)) by reflexivity.
  by rewrite (proj1 Hc doc _ doc eq_refl Hpost).
Defined.

(** A pre hook of [create] that throws. *)
Lemma create_throws_Oops :
  let w := (pre (new_ModelWrapper "Post") (Action "create") restrictDelete).1 in
  let st := request (VObj [("title", VStr "some title")]) [] [] in
  create w Post st
  = (with_trace st [EvHook type_pre "create" restrictDelete
                           (hs_req st) (hs_res st) VUndefined],
     Throw (Error "Oops!")).
Proof.
  intros w st.
  assert (Hinit : initModel w st = (st, Normal (model w (VObj [])))) by reflexivity.
  refine (proj1 (create_throws_a_pre_hook_error w Post st st _ _ _ eq_refl Hinit _)).
  reflexivity.
Defined.

(** [POST /tests/1] with the body [{name: 'newName', _id: 1}]. *)
Lemma update_saves_newName :
  let w := new_ModelWrapper "Test" in
  let st := request (VObj [("name", VStr "newName"); ("_id", VNum 1%float)])
                    [] [("id", VStr "1")] in
  let lookup := MFindOne (model w (VObj [])) (VObj [("_id", VStr "1")]) VUndefined None in
  let merged := VObj [("name", VStr "newName"); ("_id", VNum 1%float)] in
  update w Test_with_document st
  = (with_trace st [EvMapper lookup; EvMapper (MSave merged); EvSend merged],
     Normal tt).
Proof.
  intros w st lookup merged.
  assert (Hnd : NoDup (obj_keys [("name", VStr "newName"); ("_id", VNum 1%float)])).
  { cbn. apply NoDup_cons. split; [not_in_list|apply NoDup_singleton]. }
  assert (Hproto : "__proto__" ∉ obj_keys [("name", VStr "newName"); ("_id", VNum 1%float)])
    by not_in_list.
  assert (Ho : "save" ∉ obj_keys [("name", VStr "someName"); ("_id", VNum 1%float)])
    by not_in_list.
  assert (Hb : "save" ∉ obj_keys [("name", VStr "newName"); ("_id", VNum 1%float)])
    by not_in_list.
  pose proof (update_saves_the_merged_document w Test_with_document st st
                (with_trace st [EvMapper lookup]) (model w (VObj []))
                (VObj [("name", VStr "someName"); ("_id", VNum 1%float)])
                [("name", VStr "someName"); ("_id", VNum 1%float)]
                [("name", VStr "newName"); ("_id", VNum 1%float)]
                (initModel_new "Test" st) eq_refl eq_refl
                (applyHooks_new "Test" _ "update" _ _ (plain_name "update" I))
                Ho eq_refl Hnd Hproto) as Hu.
  exact (proj1 (proj2 (proj2 (proj2 (proj2 Hu))) Hb) merged _ merged eq_refl
               (applyHooks_new "Test" _ "update" _ _ (plain_name "update" I))).
Defined.

(** [POST /tests/1] with the body [{save: 1}]: the field is in the way of the
    document's method. *)
Example update_with_a_field_save :
  let w := new_ModelWrapper "Test" in
  let st := request (VObj [("save", VNum 1%float)]) [] [("id", VStr "1")] in
  let lookup := MFindOne (model w (VObj [])) (VObj [("_id", VStr "1")]) VUndefined None in
  update w Test_with_document st
  = (with_trace st [EvMapper lookup;
                    EvNext (TypeError "Object.assign(...).save is not a function")],
     Normal tt).
Proof. reflexivity. Qed.

(** [DELETE /posts/1] with the pre hook of [delete] of the test suite. *)
Lemma delete_forwards_Oops :
  let w := (pre (new_ModelWrapper "Post") (Action "delete") restrictDelete).1 in
  let st := request (VObj []) [] [("id", VStr "1")] in
  let lookup := MFindOne (model w (VObj [])) (VObj [("_id", VStr "1")]) VUndefined None in
  let found := VObj [("name", VStr "someName"); ("_id", VNum 1%float)] in
  delete w Test_with_document st
  = (with_trace st [EvMapper lookup;
                    EvHook type_pre "delete" restrictDelete (hs_req st) (hs_res st) found;
                    EvNext (Error "Oops!")],
     Normal tt).
Proof.
  intros w st lookup found.
  assert (Hinit : initModel w st = (st, Normal (model w (VObj [])))) by reflexivity.
  assert (Hd : applyHooks w type_pre "delete" found (with_trace st [EvMapper lookup])
               = (with_trace st [EvMapper lookup;
                                 EvHook type_pre "delete" restrictDelete
                                        (hs_req st) (hs_res st) found],
                  Throw (Error "Oops!"))) by reflexivity.
  exact (proj1 (update_delete_forward_a_pre_hook_error w Test_with_document
                  ByIdDelete st st _ _ found _ Hinit eq_refl eq_refl Hd)).
Defined.

(** [POST /tests/wrongStaticMethod], were there such a route. *)
Lemma callStatic_wrongStaticMethod :
  let st := request (VObj []) [] [] in
  exists e, read_prop e "name" = VStr "TypeError" /\
            callStatic (new_ModelWrapper "Test") Test "wrongStaticMethod" st
            = (with_trace st [EvNext e], Normal tt).
Proof.
  intros st.
  exact (proj2 (call_handlers_forward_failures (new_ModelWrapper "Test")
                  Test KindStatic "wrongStaticMethod" st st st _ _
                  (initModel_new "Test" st)
                  (applyHooks_new "Test" _ "static" _ st (plain_name "static" I)))
               eq_refl).
Defined.

(** The middleware of the test suite, set for [count] and for every other
    action at once. *)
Lemma getMiddleware_restrictCount :
  let w := setMiddleware (new_ModelWrapper "Test")
                         (Actions [Action "count"; Action "all"]) restrictCount in
  getMiddleware w "count" = Callable restrictCount /\
  getMiddleware w "find" = Callable restrictCount /\
  getMiddleware w "toString" = Builtin "toString".
Proof.
  intros w.
  assert (Hnames : "__proto__" ∉ action_names (Actions [Action "count"; Action "all"]))
    by not_in_list.
  pose proof (fun a => getMiddleware_setMiddleware (new_ModelWrapper "Test")
                         (Actions [Action "count"; Action "all"]) restrictCount a
                         eq_refl Hnames) as Hget.
  split; [exact (Hget "count")|]. split; [exact (Hget "find")|exact (Hget "toString")].
Defined.

(** [POST /tests] with the body [[]]. *)
Lemma create_refuses_the_empty_array :
  let req := {| body := VArr []; query := []; params := [] |} in
  run (create (new_ModelWrapper "Test") Test) req (VObj [])
  = ({| hs_req := req; hs_res := VObj []; hs_trace := [EvNext OnlyObjectsAllowed] |},
     Normal tt).
Proof.
  intros req. exact (create_array_body (new_ModelWrapper "Test") Test req (VObj []) []
                       eq_refl).
Defined.
